(** * yadisk-sync: the reconciliation run of [main.py]

    A shallow embedding of [sync] and of the [__main__] guard of
    [src/main.py], with the properties of the reconciliation run.

    Python [str] is [string]; the local backup directory and the remote
    backup folder are finite maps from entry names to contents ([gmap]);
    the script's calls on the storage client and on the logger are
    recorded, in order, in a journal. *)

From Stdlib Require Import ZArith.
From stdpp Require Import gmap strings list fin_maps.

Local Open Scope string_scope.
Local Open Scope list_scope.

(** ** Python strings *)

Module Str.

(** [s.startswith(p)] *)
Fixpoint startswith (p s : string) : bool :=
  match p, s with
  | EmptyString, _ => true
  | String a p', String b s' => if Ascii.eqb a b then startswith p' s' else false
  | String _ _, EmptyString => false
  end.

(** [s[n:]] *)
Fixpoint drop (n : nat) (s : string) : string :=
  match n, s with
  | O, _ => s
  | S n', String _ s' => drop n' s'
  | S _, EmptyString => EmptyString
  end.

(** [s[:n]] *)
Fixpoint take (n : nat) (s : string) : string :=
  match n, s with
  | O, _ => EmptyString
  | S n', String c s' => String c (take n' s')
  | S _, EmptyString => EmptyString
  end.

(** The scan of [s.replace(old, new)] for a non-empty [old]: left to
    right, every occurrence of [old] that does not overlap an earlier
    one is replaced.  [skip] counts the characters of the occurrence
    just replaced that are still to be passed over. *)
Fixpoint replace_scan (old new : string) (skip : nat) (s : string) : string :=
  match s with
  | EmptyString => EmptyString
  | String c s' =>
      match skip with
      | S k => replace_scan old new k s'
      | O =>
          if startswith old s
          then new +:+ replace_scan old new (String.length old - 1) s'
          else String c (replace_scan old new 0 s')
      end
  end.

(** [s.replace(old, new)], for a non-empty [old]. *)
Definition replace (old new s : string) : string := replace_scan old new 0 s.

(** [s.endswith(p)] *)
Definition endswith (p s : string) : bool :=
  (String.length p <=? String.length s)%nat
  && startswith p (drop (String.length s - String.length p) s).

(** [s.removesuffix(p)] *)
Definition removesuffix (p s : string) : string :=
  if endswith p s then take (String.length s - String.length p) s else s.

(** [old in s], for a non-empty [old]. *)
Fixpoint occurs (old s : string) : bool :=
  match s with
  | EmptyString => false
  | String _ s' => startswith old s || occurs old s'
  end.

End Str.

(** ** Exceptions, the world and the run monad *)

(** The exception classes the [__main__] guard tells apart:
    [KeyboardInterrupt] and the other classes outside [Exception]
    ([SystemExit], [GeneratorExit]) derive from [BaseException] only;
    everything else derives from [Exception]. *)
Inductive exn : Type :=
| KeyboardInterrupt
| BaseExceptionOnly (cls : string)
| Exception (cls : string).

(** An entry of the remote folder. *)
Inductive resource : Type :=
| RFile (data : list Byte.byte)
| RDir.

(** What [yadisk.listdir(..., fields=('name', 'type'))] yields per entry. *)
Record ResourceObject : Type := { name : string; type : string }.

(** The calls that leave a trace outside the process. *)
Inductive event : Type :=
| YadiskRemove (path : string) (permanently : bool)
| YadiskUpload (data : list Byte.byte) (dst_path : string)
| LoggingInfo (msg : string)
| LoggingException (e : exn) (exc_info : bool).

(** The state a run works on: the files of the local [BACKUPS_DIR], the
    entries of the remote [APP_BACKUPS_DIR], and the journal of calls
    made so far (oldest first).  Both directories exist: [handle_dirs]
    has run.  Every entry of the local directory is a regular file that
    can be read: a sub-directory or an unreadable file, on which
    [open] raises, is not among the states. *)
Record world : Type := World {
  backups : gmap string (list Byte.byte);
  app_backups : gmap string resource;
  journal : list event
}.

Inductive outcome (A : Type) : Type :=
| Return (a : A)
| Raise (e : exn).
Arguments Return {A} a.
Arguments Raise {A} e.

(** A statement of the script: it runs on a world, returns or raises, and
    leaves a world behind (nothing is rolled back on a raise). *)
Definition M (A : Type) : Type := world -> outcome A * world.

Definition ret {A} (a : A) : M A := fun w => (Return a, w).

Definition raise {A} (e : exn) : M A := fun w => (Raise e, w).

Definition bind {A B} (m : M A) (k : A -> M B) : M B :=
  fun w =>
    match m w with
    | (Return a, w') => k a w'
    | (Raise e, w') => (Raise e, w')
    end.

Declare Scope run_scope.
Delimit Scope run_scope with run.
Bind Scope run_scope with M.
Notation "x <- m ;; k" := (bind m (fun x => k))
  (at level 100, m at next level, right associativity) : run_scope.
Notation "m ;; k" := (bind m (fun _ => k))
  (at level 100, right associativity) : run_scope.

(** [for x in xs: body(x)] *)
Fixpoint for_each {A} (xs : list A) (body : A -> M unit) : M unit :=
  match xs with
  | [] => ret tt
  | x :: xs' => bind (body x) (fun _ => for_each xs' body)
  end.

(** [for x in xs: body(x)] where the body updates a local variable [s]. *)
Fixpoint for_fold {A S} (xs : list A) (s : S) (body : A -> S -> M S) : M S :=
  match xs with
  | [] => ret s
  | x :: xs' => bind (body x s) (fun s' => for_fold xs' s' body)
  end.

(** ** Constants of the script *)

Definition BACKUPS_DIR : string := "backups".
Definition APP_MC_DIR : string := "app:/mc".
Definition APP_BACKUPS_DIR : string := "app:/mc/backups".

(** The archive extension that [sync] appends and removes. *)
Definition TGZ : string := ".tgz".

(** The double quote of the log messages. *)
Definition dq : string := String (Ascii.ascii_of_nat 34) EmptyString.

(** ** The collaborators *)

(** [path] with the leading [prefix] removed, when it starts with it. *)
Fixpoint strip_prefix (prefix path : string) : option string :=
  match prefix, path with
  | EmptyString, _ => Some path
  | String a p', String b s' => if Ascii.eqb a b then strip_prefix p' s' else None
  | String _ _, EmptyString => None
  end.

(** The entry name that [path] denotes inside the folder [dir]. *)
Definition entry_of (dir path : string) : option string :=
  strip_prefix (dir +:+ "/") path.

Definition type_of (r : resource) : string :=
  match r with
  | RFile _ => "file"
  | RDir => "dir"
  end.

(** The entries of the remote folder, as [listdir] yields them. *)
Definition listing (d : gmap string resource) : list ResourceObject :=
  (fun nr => {| name := nr.1; type := type_of nr.2 |}) <$> map_to_list d.

(** The names [os.listdir] returns for the local directory [b].  The
    order of [os.listdir] is arbitrary; the order of the map stands for
    it. *)
Definition local_names (b : gmap string (list Byte.byte)) : list string :=
  (map_to_list b).*1.

(** [os.listdir(path)] *)
Definition os_listdir (path : string) : M (list string) :=
  fun w =>
    if String.eqb path BACKUPS_DIR
    then (Return (local_names (backups w)), w)
    else (Raise (Exception "FileNotFoundError"), w).

(** [os.stat(path).st_size] *)
Definition os_stat_size (path : string) : M nat :=
  fun w =>
    match entry_of BACKUPS_DIR path ≫= (fun n => backups w !! n) with
    | Some data => (Return (length data), w)
    | None => (Raise (Exception "FileNotFoundError"), w)
    end.

(** [open(path, 'rb')], read to the end by the upload. *)
Definition open_rb (path : string) : M (list Byte.byte) :=
  fun w =>
    match entry_of BACKUPS_DIR path ≫= (fun n => backups w !! n) with
    | Some data => (Return data, w)
    | None => (Raise (Exception "FileNotFoundError"), w)
    end.

(** [logging.info(msg)] *)
Definition logging_info (msg : string) : M unit :=
  fun w => (Return tt, World (backups w) (app_backups w) (journal w ++ [LoggingInfo msg])).

(** [logging.exception(exc, exc_info=...)]: the message with the trace. *)
Definition logging_exception (e : exn) (exc_info : bool) : M unit :=
  fun w =>
    (Return tt, World (backups w) (app_backups w) (journal w ++ [LoggingException e exc_info])).

(** Modelled from the spec: the storage client [yadisk] is a library
    outside the repository.  [listdir] yields the entries of the folder,
    each tagged file or directory; the listing is the one of the moment
    the loop starts. *)
Definition yadisk_listdir (path : string) : M (list ResourceObject) :=
  fun w =>
    if String.eqb path APP_BACKUPS_DIR
    then (Return (listing (app_backups w)), w)
    else (Raise (Exception "PathNotFoundError"), w).

(** Modelled from the spec: [remove(path, permanently)] of the storage
    client deletes the entry for good; a path that names no entry is an
    error of the client. *)
Definition yadisk_remove (path : string) (permanently : bool) : M unit :=
  fun w =>
    match entry_of APP_BACKUPS_DIR path with
    | Some n =>
        match app_backups w !! n with
        | Some _ =>
            (Return tt,
             World (backups w) (delete n (app_backups w))
                   (journal w ++ [YadiskRemove path permanently]))
        | None => (Raise (Exception "PathNotFoundError"), w)
        end
    | None => (Raise (Exception "PathNotFoundError"), w)
    end.

(** Modelled from the spec: [upload(stream, destination_path)] of the
    storage client streams the bytes to the destination, overwriting if
    present. *)
Definition yadisk_upload (data : list Byte.byte) (dst_path : string) : M unit :=
  fun w =>
    match entry_of APP_BACKUPS_DIR dst_path with
    | Some n =>
        (Return tt,
         World (backups w) (<[n := RFile data]> (app_backups w))
               (journal w ++ [YadiskUpload data dst_path]))
    | None => (Raise (Exception "PathNotFoundError"), w)
    end.

(** ** [sync] *)

(** [file.replace('.tgz', '')] *)
Definition canonical_name (file : string) : string :=
  Str.replace TGZ EmptyString file.

(** The body of the loop over the remote listing; [yadisk_files] is the
    list the loop appends to. *)
Definition purge_body (local_files : list string)
    (elem : ResourceObject) (yadisk_files : list string) : M (list string) :=
  (if String.eqb (type elem) "file" then
     if negb (bool_decide (name elem +:+ TGZ ∈ local_files)) then
       yadisk_remove (APP_BACKUPS_DIR +:+ "/" +:+ name elem) true ;;
       logging_info ("File " +:+ dq +:+ name elem +:+ dq +:+ " deleted from Yandex.Disk.") ;;
       ret yadisk_files
     else ret (yadisk_files ++ [name elem])
   else ret yadisk_files)%run.

(** The body of the loop over the local listing.  The progress bar only
    observes the stream; it is left out. *)
Definition upload_body (yadisk_files : list string) (file : string) : M unit :=
  (if negb (bool_decide (canonical_name file ∈ yadisk_files)) then
     let path := BACKUPS_DIR +:+ "/" +:+ file in
     size <- os_stat_size path ;;
     infile <- open_rb path ;;
     yadisk_upload infile (APP_BACKUPS_DIR +:+ "/" +:+ canonical_name file) ;;
     logging_info ("File " +:+ dq +:+ canonical_name file +:+ dq +:+ " uploaded to "
                   +:+ "Yandex.Disk.")
   else ret tt)%run.

Definition sync : M unit :=
  (logging_info "Yandex.Disk synchronization is running." ;;
   local_files <- os_listdir BACKUPS_DIR ;;
   elems <- yadisk_listdir APP_BACKUPS_DIR ;;
   yadisk_files <- for_fold elems [] (purge_body local_files) ;;
   for_each local_files (upload_body yadisk_files) ;;
   logging_info "Yandex.Disk synchronization is finished.")%run.

(** ** The [__main__] guard *)

(** How the script leaves the guard: with an exit status of its own
    making, or with an exception the guard does not catch.  The
    interpreter then reports that exception and sets the status itself
    (1, or the code of a [SystemExit]); that status is not part of
    [Uncaught]. *)
Inductive ending : Type :=
| Exit (status : Z)
| Uncaught (e : exn).

(** [try: main() / except KeyboardInterrupt: sys.exit(1) /
    except Exception as exc: logging.exception(exc, exc_info=True)];
    past the guard the script is over and the interpreter exits with
    status 0.  [main] stands for any body: an interrupt can arrive at
    any point of it. *)
Definition main_guard (main : M unit) (w : world) : ending * world :=
  match main w with
  | (Return _, w') => (Exit 0, w')
  | (Raise KeyboardInterrupt, w') => (Exit 1, w')
  | (Raise (Exception cls), w') =>
      (Exit 0, (logging_exception (Exception cls) true w').2)
  | (Raise (BaseExceptionOnly cls), w') => (Uncaught (BaseExceptionOnly cls), w')
  end.

(** ** What a run does, as functions of the two listings *)

Definition remote_path (n : string) : string := APP_BACKUPS_DIR +:+ "/" +:+ n.
Definition local_path (file : string) : string := BACKUPS_DIR +:+ "/" +:+ file.

Definition deleted_msg (n : string) : string :=
  "File " +:+ dq +:+ n +:+ dq +:+ " deleted from Yandex.Disk.".
Definition uploaded_msg (n : string) : string :=
  "File " +:+ dq +:+ n +:+ dq +:+ " uploaded to " +:+ "Yandex.Disk.".
Definition running_msg : string := "Yandex.Disk synchronization is running.".
Definition finished_msg : string := "Yandex.Disk synchronization is finished.".

(** A listed file without its archive in the local listing. *)
Definition orphan (local_files : list string) (elem : ResourceObject) : bool :=
  String.eqb (type elem) "file" && negb (bool_decide (name elem +:+ TGZ ∈ local_files)).

(** A listed file with its archive in the local listing. *)
Definition kept (local_files : list string) (elem : ResourceObject) : bool :=
  String.eqb (type elem) "file" && bool_decide (name elem +:+ TGZ ∈ local_files).

(** A local file whose canonical name is not in [yadisk_files]. *)
Definition missing (yadisk_files : list string) (file : string) : bool :=
  negb (bool_decide (canonical_name file ∈ yadisk_files)).

Definition keep_list (local_files : list string) (elems : list ResourceObject) : list string :=
  name <$> filter (fun e => kept local_files e) elems.

Definition purge_events (local_files : list string) (elems : list ResourceObject) : list event :=
  elems ≫= fun e =>
    if orphan local_files e
    then [YadiskRemove (remote_path (name e)) true; LoggingInfo (deleted_msg (name e))]
    else [].

Definition purged (local_files : list string) (elems : list ResourceObject)
    (d : gmap string resource) : gmap string resource :=
  foldl (fun d e => if orphan local_files e then delete (name e) d else d) d elems.

Definition upload_events (b : gmap string (list Byte.byte)) (yadisk_files files : list string)
    : list event :=
  files ≫= fun f =>
    if missing yadisk_files f
    then [YadiskUpload (default [] (b !! f)) (remote_path (canonical_name f));
          LoggingInfo (uploaded_msg (canonical_name f))]
    else [].

Definition uploaded (b : gmap string (list Byte.byte)) (yadisk_files files : list string)
    (d : gmap string resource) : gmap string resource :=
  foldl (fun d f =>
           if missing yadisk_files f
           then <[canonical_name f := RFile (default [] (b !! f))]> d
           else d) d files.

(** The contents that the upload loop sends to the entry [n], in order. *)
Definition contents_for (b : gmap string (list Byte.byte)) (yadisk_files : list string)
    (n : string) (files : list string) : list (list Byte.byte) :=
  (fun f => default [] (b !! f))
    <$> filter (fun f => missing yadisk_files f /\ canonical_name f = n) files.

Definition run_events (b : gmap string (list Byte.byte)) (d : gmap string resource)
    : list event :=
  let local_files := local_names b in
  let yadisk_files := keep_list local_files (listing d) in
  [LoggingInfo running_msg]
  ++ purge_events local_files (listing d)
  ++ upload_events b yadisk_files local_files
  ++ [LoggingInfo finished_msg].

Definition run_remote (b : gmap string (list Byte.byte)) (d : gmap string resource)
    : gmap string resource :=
  let local_files := local_names b in
  uploaded b (keep_list local_files (listing d)) local_files
           (purged local_files (listing d) d).

(** ** Reading a journal *)

Definition is_remove (ev : event) : bool :=
  match ev with YadiskRemove _ _ => true | _ => false end.

Definition is_upload (ev : event) : bool :=
  match ev with YadiskUpload _ _ => true | _ => false end.

(** The remote mutations of a journal, in order. *)
Definition mutations (jr : list event) : list event :=
  filter (fun ev => is_remove ev || is_upload ev) jr.

(** The entry names removed, in order. *)
Definition deleted_names (jr : list event) : list string :=
  omap (fun ev => match ev with
                  | YadiskRemove p _ => entry_of APP_BACKUPS_DIR p
                  | _ => None
                  end) jr.

(** The entry names uploaded to, in order. *)
Definition upload_targets (jr : list event) : list string :=
  omap (fun ev => match ev with
                  | YadiskUpload _ p => entry_of APP_BACKUPS_DIR p
                  | _ => None
                  end) jr.

(** The contents uploaded to the entry [n], in order. *)
Definition uploads_to (n : string) (jr : list event) : list (list Byte.byte) :=
  omap (fun ev => match ev with
                  | YadiskUpload data p =>
                      if bool_decide (entry_of APP_BACKUPS_DIR p = Some n) then Some data else None
                  | _ => None
                  end) jr.

(** ** Local listings of archives *)

(** Every local file has its archive name in the local listing: the
    canonical name followed by ['.tgz'] is a local name again.  This is
    so when every local name is [c] followed by ['.tgz'], with no
    ['.tgz'] inside [c]. *)
Definition archived (b : gmap string (list Byte.byte)) : Prop :=
  forall f, f ∈ local_names b -> canonical_name f +:+ TGZ ∈ local_names b.

Definition archivedb (b : gmap string (list Byte.byte)) : bool :=
  forallb (fun f => bool_decide (canonical_name f +:+ TGZ ∈ local_names b)) (local_names b).

(** ** Sample directories *)

Module Sample.

(** One local file without the extension, and the remote file of the
    same name. *)
Definition local_bare : gmap string (list Byte.byte) := {[ "a" := [Byte.x01] ]}.
Definition remote_a : gmap string resource := {[ "a" := RFile [Byte.x02] ]}.

(** Two archives; the first is on the remote side, next to a stale file
    and a directory. *)
Definition local_ab : gmap string (list Byte.byte) :=
  {[ "a.tgz" := [Byte.x01]; "b.tgz" := [Byte.x02] ]}.
Definition remote_acd : gmap string resource :=
  {[ "a" := RFile [Byte.x01]; "c" := RFile [Byte.x03]; "d" := RDir ]}.

(** An archive of an archive, and the remote file named after it. *)
Definition local_nested : gmap string (list Byte.byte) := {[ "a.tgz.tgz" := [Byte.x01] ]}.
Definition remote_atgz : gmap string resource := {[ "a.tgz" := RFile [Byte.x02] ]}.

(** Two local files with the canonical name ["p"]. *)
Definition local_pp : gmap string (list Byte.byte) :=
  {[ "p.tgz" := [Byte.x01]; "p" := [Byte.x02] ]}.

(** A local file with the extension inside its name. *)
Definition local_bak : gmap string (list Byte.byte) := {[ "a.tgz.bak" := [Byte.x05] ]}.

(** A local archive whose canonical name is a remote directory. *)
Definition local_d : gmap string (list Byte.byte) := {[ "d.tgz" := [Byte.x04] ]}.
Definition remote_dir : gmap string resource := {[ "d" := RDir ]}.

End Sample.

(** ** The site before the directories are in place *)

(** The state [main] starts from: the local [BACKUPS_DIR] may be
    missing, and so may the remote [APP_MC_DIR] and, inside it,
    [APP_BACKUPS_DIR] (which cannot be there without its parent).  The
    journal is the one of [world]; a directory that is created shows in
    the state. *)
Record site : Type := Site {
  local_dir : option (gmap string (list Byte.byte));
  app_dir : option (option (gmap string resource));
  site_journal : list event
}.

(** A statement of the script at the level of the site. *)
Definition MS (A : Type) : Type := site -> outcome A * site.

Definition ret_s {A} (a : A) : MS A := fun s => (Return a, s).

Definition bind_s {A B} (m : MS A) (k : A -> MS B) : MS B :=
  fun s =>
    match m s with
    | (Return a, s') => k a s'
    | (Raise e, s') => (Raise e, s')
    end.

Declare Scope site_scope.
Delimit Scope site_scope with site.
Bind Scope site_scope with MS.
Notation "x <- m ;; k" := (bind_s m (fun x => k))
  (at level 100, m at next level, right associativity) : site_scope.
Notation "m ;; k" := (bind_s m (fun _ => k))
  (at level 100, right associativity) : site_scope.

(** [os.path.exists(path)] *)
Definition os_path_exists (path : string) : MS bool :=
  fun s =>
    (Return (if String.eqb path BACKUPS_DIR
             then bool_decide (is_Some (local_dir s)) else false), s).

(** [os.makedirs(path, exist_ok=...)] *)
Definition os_makedirs (path : string) (exist_ok : bool) : MS unit :=
  fun s =>
    if String.eqb path BACKUPS_DIR then
      match local_dir s with
      | None => (Return tt, Site (Some ∅) (app_dir s) (site_journal s))
      | Some _ =>
          if exist_ok then (Return tt, s)
          else (Raise (Exception "FileExistsError"), s)
      end
    else (Raise (Exception "OSError"), s).

(** [logging.info(msg)], at the level of the site. *)
Definition site_logging_info (msg : string) : MS unit :=
  fun s => (Return tt, Site (local_dir s) (app_dir s) (site_journal s ++ [LoggingInfo msg])).

(** [logging.exception(exc, exc_info=...)], at the level of the site. *)
Definition site_logging_exception (e : exn) (exc_info : bool) : MS unit :=
  fun s =>
    (Return tt,
     Site (local_dir s) (app_dir s) (site_journal s ++ [LoggingException e exc_info])).

(** Modelled from the spec: [exists(path)] of the storage client. *)
Definition yadisk_exists (path : string) : MS bool :=
  fun s =>
    (Return (if String.eqb path APP_MC_DIR then bool_decide (is_Some (app_dir s))
             else if String.eqb path APP_BACKUPS_DIR
                  then bool_decide (is_Some (app_dir s ≫= id))
                  else false), s).

(** Modelled from the spec: [mkdir(path)] of the storage client fails
    if the path is already present.  A folder whose parent is missing
    cannot be created either (the state cannot hold it). *)
Definition yadisk_mkdir (path : string) : MS unit :=
  fun s =>
    if String.eqb path APP_MC_DIR then
      match app_dir s with
      | None => (Return tt, Site (local_dir s) (Some None) (site_journal s))
      | Some _ => (Raise (Exception "PathExistsError"), s)
      end
    else if String.eqb path APP_BACKUPS_DIR then
      match app_dir s with
      | None => (Raise (Exception "ParentNotFoundError"), s)
      | Some None => (Return tt, Site (local_dir s) (Some (Some ∅)) (site_journal s))
      | Some (Some _) => (Raise (Exception "PathExistsError"), s)
      end
    else (Raise (Exception "ParentNotFoundError"), s).

(** [run_logging]: [logging.basicConfig] sets the record format, the
    level [INFO] and the two handlers (file and console).  The journal
    holds every record once, without format or time stamp, so the call
    leaves the site as it is. *)
Definition run_logging : MS unit := ret_s tt.

Definition handle_dirs : MS unit :=
  (present <- os_path_exists BACKUPS_DIR ;;
   (if negb present then
      os_makedirs BACKUPS_DIR true ;;
      site_logging_info
        ("The " +:+ dq +:+ BACKUPS_DIR +:+ dq +:+ " directory is created on the local drive.")
    else ret_s tt) ;;
   present <- yadisk_exists APP_MC_DIR ;;
   (if negb present then
      yadisk_mkdir APP_MC_DIR ;;
      site_logging_info
        ("The " +:+ dq +:+ APP_MC_DIR +:+ dq +:+ " directory is created on Yandex.Disk.")
    else ret_s tt) ;;
   present <- yadisk_exists APP_BACKUPS_DIR ;;
   (if negb present then
      yadisk_mkdir APP_BACKUPS_DIR ;;
      site_logging_info
        ("The " +:+ dq +:+ APP_BACKUPS_DIR +:+ dq +:+ " directory is created on Yandex.Disk.")
    else ret_s tt))%site.

(** The site in which both directories of a world are in place. *)
Definition site_of (w : world) : site :=
  Site (Some (backups w)) (Some (Some (app_backups w))) (journal w).

(** [sync], started from a site.  Its first statement logs; then
    [os.listdir] fails when the local directory is missing, and the
    listing of the remote folder fails when the folder is missing.
    With both in place the run is [sync] on their contents. *)
Definition sync_on_site : MS unit :=
  fun s =>
    match local_dir s, app_dir s with
    | Some b, Some (Some d) =>
        let r := sync (World b d (site_journal s)) in (r.1, site_of r.2)
    | None, _ =>
        (Raise (Exception "FileNotFoundError"),
         Site (local_dir s) (app_dir s) (site_journal s ++ [LoggingInfo running_msg]))
    | Some _, _ =>
        (Raise (Exception "PathNotFoundError"),
         Site (local_dir s) (app_dir s) (site_journal s ++ [LoggingInfo running_msg]))
    end.

Definition main : MS unit :=
  (run_logging ;;
   handle_dirs ;;
   sync_on_site)%site.

(** The [__main__] guard around [main]. *)
Definition script (s : site) : ending * site :=
  match main s with
  | (Return _, s') => (Exit 0, s')
  | (Raise KeyboardInterrupt, s') => (Exit 1, s')
  | (Raise (Exception cls), s') =>
      (Exit 0, (site_logging_exception (Exception cls) true s').2)
  | (Raise (BaseExceptionOnly cls), s') => (Uncaught (BaseExceptionOnly cls), s')
  end.

(** The messages of [handle_dirs]. *)
Definition created_local_msg : string :=
  "The " +:+ dq +:+ BACKUPS_DIR +:+ dq +:+ " directory is created on the local drive.".
Definition created_mc_msg : string :=
  "The " +:+ dq +:+ APP_MC_DIR +:+ dq +:+ " directory is created on Yandex.Disk.".
Definition created_backups_msg : string :=
  "The " +:+ dq +:+ APP_BACKUPS_DIR +:+ dq +:+ " directory is created on Yandex.Disk.".

(** The local directory and the remote folder that [handle_dirs] leaves:
    the ones found, or empty ones. *)
Definition local_after (s : site) : gmap string (list Byte.byte) :=
  default ∅ (local_dir s).
Definition remote_after (s : site) : gmap string resource :=
  default ∅ (app_dir s ≫= id).

(** The records [handle_dirs] writes: one per directory it creates. *)
Definition setup_events (s : site) : list event :=
  (if local_dir s is None then [LoggingInfo created_local_msg] else [])
  ++ (if app_dir s is None then [LoggingInfo created_mc_msg] else [])
  ++ (if app_dir s ≫= id is None then [LoggingInfo created_backups_msg] else []).

(** ** Archive names *)

(** Every local name is some [c] followed by ['.tgz'], with no ['.tgz']
    inside [c]: the names the script is written for. *)
Definition archive_names (b : gmap string (list Byte.byte)) : Prop :=
  forall f, f ∈ local_names b -> exists c, f = c +:+ TGZ /\ Str.occurs TGZ c = false.

Module Site_sample.

(** Nothing is in place yet. *)
Definition fresh : site := Site None None [].

(** The remote folder holds files, the local directory is missing. *)
Definition no_local : site :=
  Site None (Some (Some {[ "a" := RFile [Byte.x01]; "d" := RDir ]})) [].

End Site_sample.

(** * Properties *)

(** ** Strings *)

Example replace_all_occurrences :
  Str.replace TGZ EmptyString "a.tgz.bak.tgz" = "a.bak".
Proof. reflexivity. Qed.

Example replace_single_pass :
  Str.replace TGZ EmptyString ".t.tgzgz" = ".tgz".
Proof. reflexivity. Qed.

Example replace_non_overlapping : Str.replace "aa" "b" "aaaaa" = "bba".
Proof. reflexivity. Qed.

Example removesuffix_once : Str.removesuffix TGZ "a.tgz.tgz" = "a.tgz".
Proof. reflexivity. Qed.

(** The equations of [replace]: past an occurrence of [old] the scan
    resumes right after it; elsewhere it copies one character. *)
Lemma replace_scan_skip old new k s :
  Str.replace_scan old new k s = Str.replace_scan old new 0 (Str.drop k s).
Proof.
  revert k. induction s as [|c s IH]; intros [|k]; try done.
  cbn [Str.replace_scan Str.drop]. apply IH.
Qed.

Lemma replace_match o old new s :
  Str.startswith (String o old) s = true ->
  Str.replace (String o old) new s
  = new +:+ Str.replace (String o old) new (Str.drop (String.length (String o old)) s).
Proof.
  destruct s as [|c s]; [done|]. intros H. unfold Str.replace.
  cbn [Str.replace_scan]. rewrite H, replace_scan_skip.
  cbn [String.length Str.drop Nat.sub]. by rewrite ?Nat.sub_0_r.
Qed.

Lemma replace_no_match old new c s :
  Str.startswith old (String c s) = false ->
  Str.replace old new (String c s) = String c (Str.replace old new s).
Proof. intros H. unfold Str.replace. cbn [Str.replace_scan]. by rewrite H. Qed.

Lemma entry_of_remote_path n : entry_of APP_BACKUPS_DIR (remote_path n) = Some n.
Proof. reflexivity. Qed.

Lemma entry_of_local_path f : entry_of BACKUPS_DIR (local_path f) = Some f.
Proof. reflexivity. Qed.

Lemma remote_path_inj n m : remote_path n = remote_path m -> n = m.
Proof.
  intros H. apply (f_equal (entry_of APP_BACKUPS_DIR)) in H.
  rewrite !entry_of_remote_path in H. congruence.
Qed.

(** ** Canonical names of archive names *)

Lemma occurs_cons old a s :
  Str.occurs old (String a s) = false ->
  Str.startswith old (String a s) = false /\ Str.occurs old s = false.
Proof. cbn [Str.occurs]. by intros [? ?]%orb_false_elim. Qed.

(** A name without ['.tgz'] is its own canonical name. *)
Lemma canonical_name_no_tgz s : Str.occurs TGZ s = false -> canonical_name s = s.
Proof.
  unfold canonical_name, Str.replace.
  induction s as [|a s IH]; intros H; [done|].
  apply occurs_cons in H as [Hs Ho]. cbn [Str.replace_scan]. rewrite Hs.
  by rewrite IH.
Qed.

(** A non-empty name that does not start with ['.tgz'] does not start
    with it either when ['.tgz'] is appended: the dot of the suffix is
    none of the letters [t], [g], [z]. *)
Lemma startswith_tgz_app a s :
  Str.startswith TGZ (String a s) = false ->
  Str.startswith TGZ (String a s +:+ TGZ) = false.
Proof.
  unfold TGZ. intros H.
  change (String a s +:+ ".tgz") with (String a (s +:+ ".tgz")).
  cbn -[Ascii.eqb] in *. destruct (Ascii.eqb _ a); [|done].
  destruct s as [|a2 s]; [done|].
  change (String a2 s +:+ ".tgz") with (String a2 (s +:+ ".tgz")).
  cbn -[Ascii.eqb] in *. destruct (Ascii.eqb _ a2); [|done].
  destruct s as [|a3 s]; [done|].
  change (String a3 s +:+ ".tgz") with (String a3 (s +:+ ".tgz")).
  cbn -[Ascii.eqb] in *. destruct (Ascii.eqb _ a3); [|done].
  destruct s as [|a4 s]; [done|].
  change (String a4 s +:+ ".tgz") with (String a4 (s +:+ ".tgz")).
  cbn -[Ascii.eqb] in *. by destruct (Ascii.eqb _ a4).
Qed.

(** On an archive name, [c] followed by ['.tgz'] with no ['.tgz'] in
    [c], the canonical name is [c]. *)
Lemma canonical_name_archive c :
  Str.occurs TGZ c = false -> canonical_name (c +:+ TGZ) = c.
Proof.
  unfold canonical_name, Str.replace.
  induction c as [|a c IH]; intros H; [reflexivity|].
  apply occurs_cons in H as [Hs Ho].
  apply startswith_tgz_app in Hs.
  change (String a c +:+ TGZ) with (String a (c +:+ TGZ)) in *.
  cbn [Str.replace_scan]. rewrite Hs. by rewrite IH.
Qed.

Lemma length_app_string (s t : string) :
  String.length (s +:+ t) = (String.length s + String.length t)%nat.
Proof.
  induction s as [|a s IH]; [done|].
  change (String a s +:+ t) with (String a (s +:+ t)).
  cbn [String.length Nat.add]. by rewrite IH.
Qed.

Lemma drop_app_string s t : Str.drop (String.length s) (s +:+ t) = t.
Proof.
  induction s as [|a s IH]; [by destruct t|].
  change (String a s +:+ t) with (String a (s +:+ t)).
  by cbn [String.length Str.drop].
Qed.

Lemma take_app_string s t : Str.take (String.length s) (s +:+ t) = s.
Proof.
  induction s as [|a s IH]; [by destruct t|].
  change (String a s +:+ t) with (String a (s +:+ t)).
  cbn [String.length Str.take]. by rewrite IH.
Qed.

Lemma startswith_refl p : Str.startswith p p = true.
Proof. induction p as [|a p IH]; cbn; [done|]. by rewrite Ascii.eqb_refl. Qed.

Lemma removesuffix_app c p : Str.removesuffix p (c +:+ p) = c.
Proof.
  unfold Str.removesuffix, Str.endswith. rewrite length_app_string.
  replace (String.length c + String.length p - String.length p)%nat
    with (String.length c) by lia.
  rewrite drop_app_string, startswith_refl, take_app_string.
  rewrite (leb_correct (String.length p)) by lia. done.
Qed.

(** On archive names the code removes exactly the trailing suffix. *)
Lemma canonical_name_removesuffix c :
  Str.occurs TGZ c = false ->
  canonical_name (c +:+ TGZ) = Str.removesuffix TGZ (c +:+ TGZ).
Proof. intros H. by rewrite canonical_name_archive, removesuffix_app. Qed.

(** ** The two listings *)

Lemma elem_of_local_names b f : f ∈ local_names b <-> is_Some (b !! f).
Proof.
  unfold local_names. rewrite list_elem_of_fmap. split.
  - intros [[f' x] [-> Hin]]. apply elem_of_map_to_list in Hin. by exists x.
  - intros [x Hx]. exists (f, x). split; [done|]. by apply elem_of_map_to_list.
Qed.

Lemma listing_names d : name <$> listing d = (map_to_list d).*1.
Proof. unfold listing. rewrite <- list_fmap_compose. by apply list_fmap_ext. Qed.

Lemma elem_of_listing d e :
  e ∈ listing d <-> exists r, d !! name e = Some r /\ type e = type_of r.
Proof.
  unfold listing. rewrite list_elem_of_fmap. split.
  - intros [[n r] [-> Hin]]. apply elem_of_map_to_list in Hin. by exists r.
  - intros [r [Hr Hty]]. exists (name e, r). split.
    + destruct e as [n t]. cbn in *. by rewrite Hty.
    + by apply elem_of_map_to_list.
Qed.

Lemma type_of_file r : String.eqb (type_of r) "file" = true <-> exists x, r = RFile x.
Proof.
  destruct r as [x|]; cbn; split; try done.
  - by exists x.
  - by intros [x Hx].
Qed.

Lemma archivedb_archived b : archivedb b = true -> archived b.
Proof.
  unfold archivedb, archived. rewrite forallb_forall. intros H f Hf.
  apply list_elem_of_In, H in Hf. by apply bool_decide_eq_true_1 in Hf.
Qed.

(** A local directory that holds archive names only is [archived]. *)
Lemma archives_archived b :
  (forall f, f ∈ local_names b -> exists c, f = c +:+ TGZ /\ Str.occurs TGZ c = false) ->
  archived b.
Proof.
  intros H f Hf. destruct (H f Hf) as [c [-> Hc]].
  by rewrite canonical_name_archive.
Qed.

(** ** The loops, one element at a time *)

Section Loops.

Variable b : gmap string (list Byte.byte).
Variable local_files : list string.

Lemma orphan_kept e : orphan local_files e = true -> kept local_files e = false.
Proof.
  unfold orphan, kept. destruct (String.eqb _ _); [|done].
  by destruct (bool_decide _).
Qed.

Lemma keep_list_cons e es :
  keep_list local_files (e :: es) =
    if kept local_files e then name e :: keep_list local_files es
    else keep_list local_files es.
Proof.
  unfold keep_list. rewrite filter_cons.
  destruct (decide (kept local_files e)) as [H|H];
    destruct (kept local_files e); done.
Qed.

Lemma purged_cons e es d :
  purged local_files (e :: es) d =
    purged local_files es (if orphan local_files e then delete (name e) d else d).
Proof. reflexivity. Qed.

Lemma purge_events_cons e es :
  purge_events local_files (e :: es) =
    (if orphan local_files e
     then [YadiskRemove (remote_path (name e)) true; LoggingInfo (deleted_msg (name e))]
     else []) ++ purge_events local_files es.
Proof. reflexivity. Qed.

Lemma purge_body_run e acc d jr :
  purge_body local_files e acc (World b d jr) =
    if orphan local_files e then
      match d !! name e with
      | Some _ =>
          (Return acc,
           World b (delete (name e) d)
                 (jr ++ [YadiskRemove (remote_path (name e)) true;
                         LoggingInfo (deleted_msg (name e))]))
      | None => (Raise (Exception "PathNotFoundError"), World b d jr)
      end
    else (Return (if kept local_files e then acc ++ [name e] else acc), World b d jr).
Proof.
  unfold purge_body, orphan, kept.
  destruct (String.eqb (type e) "file"); cbn [andb]; [|done].
  destruct (bool_decide (name e +:+ TGZ ∈ local_files)); cbn [negb]; [done|].
  unfold bind, yadisk_remove. fold (remote_path (name e)).
  rewrite entry_of_remote_path. cbn [backups app_backups journal].
  destruct (d !! name e); [|done].
  unfold logging_info, ret. cbn [backups app_backups journal].
  by rewrite <- app_assoc.
Qed.

(** The loop over the remote listing returns: every listed entry is
    still there when its turn comes. *)
Lemma purge_loop elems : forall acc d jr,
  NoDup (name <$> elems) ->
  (forall e, e ∈ elems -> is_Some (d !! name e)) ->
  for_fold elems acc (purge_body local_files) (World b d jr) =
    (Return (acc ++ keep_list local_files elems),
     World b (purged local_files elems d) (jr ++ purge_events local_files elems)).
Proof.
  induction elems as [|e es IH]; intros acc d jr Hnd Hin.
  - cbn. by rewrite !app_nil_r.
  - rewrite fmap_cons in Hnd. apply NoDup_cons in Hnd as [Hne Hnd].
    cbn [for_fold]. unfold bind.
    rewrite purge_body_run, keep_list_cons, purged_cons, purge_events_cons.
    destruct (orphan local_files e) eqn:Ho.
    + rewrite (orphan_kept _ Ho).
      destruct (Hin e) as [r Hr]; [by left|]. rewrite Hr.
      rewrite IH; [by rewrite <- !app_assoc|done|].
      intros e' He'. rewrite lookup_delete_ne; [apply Hin; by right|].
      intros Heq. apply Hne. rewrite Heq. by apply list_elem_of_fmap_2.
    + rewrite IH; [|done|intros e' He'; apply Hin; by right].
      destruct (kept local_files e); by rewrite <- ?app_assoc.
Qed.

Variable yadisk_files : list string.

Lemma uploaded_cons f fs d :
  uploaded b yadisk_files (f :: fs) d =
    uploaded b yadisk_files fs
      (if missing yadisk_files f
       then <[canonical_name f := RFile (default [] (b !! f))]> d else d).
Proof. reflexivity. Qed.

Lemma upload_events_cons f fs :
  upload_events b yadisk_files (f :: fs) =
    (if missing yadisk_files f
     then [YadiskUpload (default [] (b !! f)) (remote_path (canonical_name f));
           LoggingInfo (uploaded_msg (canonical_name f))]
     else []) ++ upload_events b yadisk_files fs.
Proof. reflexivity. Qed.

Lemma contents_for_cons n f fs :
  contents_for b yadisk_files n (f :: fs) =
    if missing yadisk_files f && bool_decide (canonical_name f = n)
    then default [] (b !! f) :: contents_for b yadisk_files n fs
    else contents_for b yadisk_files n fs.
Proof.
  unfold contents_for. rewrite filter_cons.
  destruct (missing yadisk_files f); cbn [andb].
  - destruct (decide (canonical_name f = n)) as [Heq|Hne].
    + rewrite bool_decide_eq_true_2 by done. by rewrite decide_True.
    + rewrite bool_decide_eq_false_2 by done.
      by rewrite decide_False by (intros [_ ?]; done).
  - by rewrite decide_False by (intros [[] _]).
Qed.

Lemma upload_body_run f d jr :
  upload_body yadisk_files f (World b d jr) =
    if missing yadisk_files f then
      match b !! f with
      | Some data =>
          (Return tt,
           World b (<[canonical_name f := RFile data]> d)
                 (jr ++ [YadiskUpload data (remote_path (canonical_name f));
                         LoggingInfo (uploaded_msg (canonical_name f))]))
      | None => (Raise (Exception "FileNotFoundError"), World b d jr)
      end
    else (Return tt, World b d jr).
Proof.
  unfold upload_body, missing.
  destruct (bool_decide (canonical_name f ∈ yadisk_files)); cbn [negb]; [done|].
  fold (local_path f). unfold bind, os_stat_size, open_rb.
  rewrite entry_of_local_path. cbn [mbind option_bind backups].
  destruct (b !! f) as [data|] eqn:Hb; [|done].
  cbn [backups]. rewrite Hb.
  unfold yadisk_upload. fold (remote_path (canonical_name f)).
  rewrite entry_of_remote_path. unfold logging_info.
  cbn [backups app_backups journal]. by rewrite <- app_assoc.
Qed.

(** The loop over the local listing returns: every listed file can be
    opened. *)
Lemma upload_loop files : forall d jr,
  (forall f, f ∈ files -> is_Some (b !! f)) ->
  for_each files (upload_body yadisk_files) (World b d jr) =
    (Return tt,
     World b (uploaded b yadisk_files files d) (jr ++ upload_events b yadisk_files files)).
Proof.
  induction files as [|f fs IH]; intros d jr Hin.
  - cbn. by rewrite app_nil_r.
  - cbn [for_each]. unfold bind.
    rewrite upload_body_run, uploaded_cons, upload_events_cons.
    destruct (missing yadisk_files f).
    + destruct (Hin f) as [data Hdata]; [by left|]. rewrite Hdata. cbn [default].
      rewrite IH; [by rewrite <- !app_assoc|]. intros f' Hf'. apply Hin. by right.
    + rewrite IH; [done|]. intros f' Hf'. apply Hin. by right.
Qed.

End Loops.

(** ** The run as a whole *)

Lemma bind_return {A B} (m : M A) (k : A -> M B) w a w' :
  m w = (Return a, w') -> bind m k w = k a w'.
Proof. intros H. unfold bind. by rewrite H. Qed.

Lemma os_listdir_run w :
  os_listdir BACKUPS_DIR w = (Return (local_names (backups w)), w).
Proof. reflexivity. Qed.

Lemma yadisk_listdir_run w :
  yadisk_listdir APP_BACKUPS_DIR w = (Return (listing (app_backups w)), w).
Proof. reflexivity. Qed.

(** The remote loop of a run, from the listing of the folder itself. *)
Lemma purge_run b d jr :
  for_fold (listing d) [] (purge_body (local_names b)) (World b d jr) =
    (Return (keep_list (local_names b) (listing d)),
     World b (purged (local_names b) (listing d) d)
           (jr ++ purge_events (local_names b) (listing d))).
Proof.
  rewrite purge_loop; [done| |].
  - rewrite listing_names. apply NoDup_fst_map_to_list.
  - intros e He. apply elem_of_listing in He as [r [Hr _]]. by exists r.
Qed.

(** [sync] returns, and leaves the local directory as it was. *)
Lemma sync_run b d jr :
  sync (World b d jr) = (Return tt, World b (run_remote b d) (jr ++ run_events b d)).
Proof.
  unfold sync.
  erewrite bind_return by reflexivity.
  erewrite bind_return by apply os_listdir_run.
  erewrite bind_return by apply yadisk_listdir_run.
  cbn [backups app_backups journal].
  erewrite bind_return by apply purge_run.
  erewrite bind_return; cycle 1.
  { apply upload_loop. intros f Hf. by apply elem_of_local_names. }
  unfold logging_info. cbn [backups app_backups journal].
  unfold run_remote, run_events. by rewrite <- !app_assoc.
Qed.

Lemma sync_returns w : (sync w).1 = Return tt.
Proof. destruct w as [b d jr]. by rewrite sync_run. Qed.

Lemma sync_journal b d : journal (sync (World b d [])).2 = run_events b d.
Proof. by rewrite sync_run. Qed.

Lemma sync_remote b d jr : app_backups (sync (World b d jr)).2 = run_remote b d.
Proof. by rewrite sync_run. Qed.

Lemma sync_local b d jr : backups (sync (World b d jr)).2 = b.
Proof. by rewrite sync_run. Qed.

(** ** Reading the journal of a run *)

(** One step of a reader ([omap]) over the events of a loop. *)
Ltac reader_step IH :=
  rewrite ?purge_events_cons, ?upload_events_cons, ?filter_cons;
  unfold deleted_names, upload_targets, uploads_to in *;
  rewrite omap_app, IH.

Lemma deleted_names_purge local_files es :
  deleted_names (purge_events local_files es) =
    name <$> filter (fun e => orphan local_files e) es.
Proof.
  induction es as [|e es IH]; [done|]. reader_step IH.
  destruct (decide (orphan local_files e)) as [H|H];
    destruct (orphan local_files e); done.
Qed.

Lemma upload_targets_purge local_files es :
  upload_targets (purge_events local_files es) = [].
Proof.
  induction es as [|e es IH]; [done|]. reader_step IH.
  by destruct (orphan local_files e).
Qed.

Lemma uploads_to_purge n local_files es :
  uploads_to n (purge_events local_files es) = [].
Proof.
  induction es as [|e es IH]; [done|]. reader_step IH.
  by destruct (orphan local_files e).
Qed.

Lemma deleted_names_upload b yadisk_files fs :
  deleted_names (upload_events b yadisk_files fs) = [].
Proof.
  induction fs as [|f fs IH]; [done|]. reader_step IH.
  by destruct (missing yadisk_files f).
Qed.

Lemma upload_targets_upload b yadisk_files fs :
  upload_targets (upload_events b yadisk_files fs) =
    canonical_name <$> filter (fun f => missing yadisk_files f) fs.
Proof.
  induction fs as [|f fs IH]; [done|]. reader_step IH.
  destruct (decide (missing yadisk_files f)) as [H|H];
    destruct (missing yadisk_files f); done.
Qed.

Lemma uploads_to_upload n b yadisk_files fs :
  uploads_to n (upload_events b yadisk_files fs) = contents_for b yadisk_files n fs.
Proof.
  induction fs as [|f fs IH]; [done|].
  rewrite contents_for_cons. reader_step IH.
  destruct (missing yadisk_files f); cbn [andb]; [|done].
  cbn [omap list_omap]. rewrite entry_of_remote_path.
  destruct (decide (canonical_name f = n)) as [Heq|Hne].
  - by rewrite !bool_decide_eq_true_2 by congruence.
  - by rewrite !bool_decide_eq_false_2 by congruence.
Qed.

Lemma deleted_names_run b d :
  deleted_names (run_events b d) =
    name <$> filter (fun e => orphan (local_names b) e) (listing d).
Proof.
  unfold run_events, deleted_names. rewrite !omap_app.
  fold (deleted_names (purge_events (local_names b) (listing d))).
  fold (deleted_names
          (upload_events b (keep_list (local_names b) (listing d)) (local_names b))).
  rewrite deleted_names_purge, deleted_names_upload. cbn. by rewrite app_nil_r.
Qed.

Lemma upload_targets_run b d :
  upload_targets (run_events b d) =
    canonical_name
      <$> filter (fun f => missing (keep_list (local_names b) (listing d)) f) (local_names b).
Proof.
  unfold run_events, upload_targets. rewrite !omap_app.
  fold (upload_targets (purge_events (local_names b) (listing d))).
  fold (upload_targets
          (upload_events b (keep_list (local_names b) (listing d)) (local_names b))).
  rewrite upload_targets_purge, upload_targets_upload. cbn. by rewrite app_nil_r.
Qed.

Lemma uploads_to_run n b d :
  uploads_to n (run_events b d) =
    contents_for b (keep_list (local_names b) (listing d)) n (local_names b).
Proof.
  unfold run_events, uploads_to. rewrite !omap_app.
  fold (uploads_to n (purge_events (local_names b) (listing d))).
  fold (uploads_to n
          (upload_events b (keep_list (local_names b) (listing d)) (local_names b))).
  rewrite uploads_to_purge, uploads_to_upload. cbn. by rewrite app_nil_r.
Qed.

Lemma elem_of_keep_list b d n :
  n ∈ keep_list (local_names b) (listing d) <->
  (exists x, d !! n = Some (RFile x)) /\ n +:+ TGZ ∈ local_names b.
Proof.
  unfold keep_list. rewrite list_elem_of_fmap. split.
  - intros [e [-> He]]. apply list_elem_of_filter in He as [Hk He].
    apply elem_of_listing in He as [r [Hr Hty]].
    unfold kept in Hk. apply andb_prop_elim in Hk as [Hf Hl].
    apply Is_true_true in Hf. rewrite Hty in Hf.
    apply type_of_file in Hf as [x ->]. split; [by exists x|].
    by apply bool_decide_unpack in Hl.
  - intros [[x Hx] Hl]. exists {| name := n; type := "file" |}. split; [done|].
    apply list_elem_of_filter. split.
    + unfold kept. cbn. by apply bool_decide_pack.
    + apply elem_of_listing. by exists (RFile x).
Qed.

Lemma elem_of_deleted_names b d n :
  n ∈ deleted_names (run_events b d) <->
  (exists x, d !! n = Some (RFile x)) /\ n +:+ TGZ ∉ local_names b.
Proof.
  rewrite deleted_names_run, list_elem_of_fmap. split.
  - intros [e [-> He]]. apply list_elem_of_filter in He as [Hk He].
    apply elem_of_listing in He as [r [Hr Hty]].
    unfold orphan in Hk. apply andb_prop_elim in Hk as [Hf Hl].
    apply Is_true_true in Hf. rewrite Hty in Hf.
    apply type_of_file in Hf as [x ->]. split; [by exists x|].
    apply negb_prop_elim in Hl. intros Hin. apply Hl. by apply bool_decide_pack.
  - intros [[x Hx] Hl]. exists {| name := n; type := "file" |}. split; [done|].
    apply list_elem_of_filter. split.
    + unfold orphan. cbn. apply negb_prop_intro. intros H.
      by apply bool_decide_unpack in H.
    + apply elem_of_listing. by exists (RFile x).
Qed.

Lemma elem_of_upload_targets b d n :
  n ∈ upload_targets (run_events b d) <->
  exists f, is_Some (b !! f) /\ canonical_name f = n /\
            n ∉ keep_list (local_names b) (listing d).
Proof.
  rewrite upload_targets_run, list_elem_of_fmap. split.
  - intros [f [-> Hf]]. apply list_elem_of_filter in Hf as [Hm Hf].
    exists f. split; [by apply elem_of_local_names|]. split; [done|].
    unfold missing in Hm. apply negb_prop_elim in Hm.
    intros Hin. apply Hm. by apply bool_decide_pack.
  - intros [f [Hf [<- Hk]]]. exists f. split; [done|].
    apply list_elem_of_filter. split; [|by apply elem_of_local_names].
    unfold missing. apply negb_prop_intro. intros H.
    by apply bool_decide_unpack in H.
Qed.

Lemma elem_of_uploads_to b d n data :
  data ∈ uploads_to n (run_events b d) <->
  exists f, b !! f = Some data /\ canonical_name f = n /\
            n ∉ keep_list (local_names b) (listing d).
Proof.
  rewrite uploads_to_run. unfold contents_for. rewrite list_elem_of_fmap. split.
  - intros [f [-> Hf]]. apply list_elem_of_filter in Hf as [[Hm Hc] Hf].
    apply elem_of_local_names in Hf as [x Hx]. exists f. rewrite Hx.
    split; [done|]. split; [done|].
    unfold missing in Hm. apply negb_prop_elim in Hm. rewrite <- Hc.
    intros Hin. apply Hm. by apply bool_decide_pack.
  - intros [f [Hf [Hc Hk]]]. exists f. rewrite Hf. split; [done|].
    apply list_elem_of_filter. split; [|apply elem_of_local_names; by exists data].
    split; [|done]. unfold missing. apply negb_prop_intro. intros H.
    apply bool_decide_unpack in H. by rewrite Hc in H.
Qed.

(** ** The remote folder after a run *)

Lemma purged_lookup local_files es : forall d n,
  purged local_files es d !! n =
    if bool_decide (n ∈ name <$> filter (fun e => orphan local_files e) es)
    then None else d !! n.
Proof.
  induction es as [|e es IH]; intros d n; [done|].
  rewrite purged_cons, IH, filter_cons.
  destruct (bool_decide (n ∈ name <$> filter (fun e => orphan local_files e) es)) eqn:Hn.
  - apply bool_decide_eq_true_1 in Hn. rewrite bool_decide_eq_true_2; [done|].
    destruct (decide (orphan local_files e)); [rewrite fmap_cons; by right|done].
  - apply bool_decide_eq_false_1 in Hn.
    destruct (decide (orphan local_files e)) as [Ho|Ho].
    + apply Is_true_true in Ho. rewrite Ho, fmap_cons.
      destruct (decide (n = name e)) as [->|Hne].
      * rewrite bool_decide_eq_true_2 by left. apply lookup_delete_eq.
      * rewrite bool_decide_eq_false_2.
        -- by apply lookup_delete_ne.
        -- intros Hin. apply elem_of_cons in Hin as [?|?]; done.
    + rewrite bool_decide_eq_false_2 by done.
      destruct (orphan local_files e); [by destruct Ho|done].
Qed.

Lemma run_purged_lookup b d n :
  purged (local_names b) (listing d) d !! n =
    match d !! n with
    | Some (RFile x) =>
        if bool_decide (n +:+ TGZ ∈ local_names b) then Some (RFile x) else None
    | o => o
    end.
Proof.
  rewrite purged_lookup, <- deleted_names_run.
  destruct (bool_decide (n ∈ deleted_names (run_events b d))) eqn:Hn.
  - apply bool_decide_eq_true_1, elem_of_deleted_names in Hn as [[x Hx] Hl].
    rewrite Hx. by rewrite bool_decide_eq_false_2.
  - apply bool_decide_eq_false_1 in Hn.
    destruct (d !! n) as [[x|]|] eqn:Hd; [|done|done].
    rewrite bool_decide_eq_true_2; [done|].
    destruct (decide (n +:+ TGZ ∈ local_names b)) as [|Hl]; [done|].
    exfalso. apply Hn, elem_of_deleted_names. split; [by exists x|done].
Qed.

Lemma uploaded_lookup b yadisk_files fs : forall d n,
  uploaded b yadisk_files fs d !! n =
    match last (contents_for b yadisk_files n fs) with
    | Some data => Some (RFile data)
    | None => d !! n
    end.
Proof.
  induction fs as [|f fs IH]; intros d n; [done|].
  rewrite uploaded_cons, IH, contents_for_cons.
  destruct (missing yadisk_files f); cbn [andb]; [|done].
  destruct (decide (canonical_name f = n)) as [Heq|Hne].
  - rewrite bool_decide_eq_true_2 by done. rewrite last_cons.
    destruct (last (contents_for b yadisk_files n fs)); [done|].
    rewrite Heq. apply lookup_insert_eq.
  - rewrite bool_decide_eq_false_2 by done.
    destruct (last (contents_for b yadisk_files n fs)); [done|].
    by apply lookup_insert_ne.
Qed.

(** An entry after the run: the last upload to it if there was one,
    otherwise what the remote loop left of it. *)
Lemma run_remote_lookup b d n :
  run_remote b d !! n =
    match last (uploads_to n (run_events b d)) with
    | Some data => Some (RFile data)
    | None =>
        match d !! n with
        | Some (RFile x) =>
            if bool_decide (n +:+ TGZ ∈ local_names b) then Some (RFile x) else None
        | o => o
        end
    end.
Proof.
  unfold run_remote. by rewrite uploaded_lookup, run_purged_lookup, uploads_to_run.
Qed.

(** Coverage: after a run every local file has a remote file under its
    canonical name. *)
Lemma run_remote_covers b d f :
  is_Some (b !! f) -> exists x, run_remote b d !! canonical_name f = Some (RFile x).
Proof.
  intros [data Hdata]. rewrite run_remote_lookup.
  destruct (last (uploads_to (canonical_name f) (run_events b d))) as [y|] eqn:Hlast;
    [by exists y|].
  apply last_None in Hlast.
  destruct (decide (canonical_name f ∈ keep_list (local_names b) (listing d)))
    as [Hk|Hk].
  - apply elem_of_keep_list in Hk as [[x Hx] Hl].
    rewrite Hx, bool_decide_eq_true_2 by done. by exists x.
  - assert (Hin : data ∈ uploads_to (canonical_name f) (run_events b d)).
    { apply elem_of_uploads_to. by exists f. }
    rewrite Hlast in Hin. by apply not_elem_of_nil in Hin.
Qed.

(** A file that is in the remote folder after a run is the target of a
    local file or has its archive in the local listing. *)
Lemma run_remote_file b d n x :
  run_remote b d !! n = Some (RFile x) ->
  (exists f, is_Some (b !! f) /\ canonical_name f = n) \/ n +:+ TGZ ∈ local_names b.
Proof.
  rewrite run_remote_lookup.
  destruct (last (uploads_to n (run_events b d))) as [y|] eqn:Hlast.
  - intros _. left. apply last_Some_elem_of, elem_of_uploads_to in Hlast
      as [f [Hf [Hc _]]]. exists f. split; [by exists y|done].
  - destruct (d !! n) as [[x'|]|]; [|done|done].
    destruct (bool_decide (n +:+ TGZ ∈ local_names b)) eqn:Hl; [|done].
    intros _. right. by apply bool_decide_eq_true_1 in Hl.
Qed.

(** Where every local name is its canonical name followed by ['.tgz'],
    every file in the remote folder after a run is the canonical name of
    a local file. *)
Lemma run_remote_files_of_archives b d :
  (forall f, f ∈ local_names b -> f = canonical_name f +:+ TGZ) ->
  forall n x, run_remote b d !! n = Some (RFile x) ->
              exists f, f ∈ local_names b /\ canonical_name f = n.
Proof.
  intros Hall n x [[f [Hf Hc]]|Hl]%run_remote_file.
  - exists f. split; [by apply elem_of_local_names|done].
  - exists (n +:+ TGZ). split; [done|].
    pose proof (Hall _ Hl) as Heq.
    apply (f_equal (Str.removesuffix TGZ)) in Heq.
    by rewrite !removesuffix_app in Heq.
Qed.

(** ** A journal without mutations *)

Lemma purge_events_nil local_files es :
  (forall e, e ∈ es -> orphan local_files e = false) -> purge_events local_files es = [].
Proof.
  induction es as [|e es IH]; intros H; [done|].
  rewrite purge_events_cons, H by left. rewrite IH; [done|].
  intros e' He'. apply H. by right.
Qed.

Lemma upload_events_nil b yadisk_files fs :
  (forall f, f ∈ fs -> missing yadisk_files f = false) ->
  upload_events b yadisk_files fs = [].
Proof.
  induction fs as [|f fs IH]; intros H; [done|].
  rewrite upload_events_cons, H by left. rewrite IH; [done|].
  intros f' Hf'. apply H. by right.
Qed.

(** ** The two phases of the journal *)

Lemma purge_events_no_upload local_files es :
  Forall (fun ev => is_upload ev = false) (purge_events local_files es).
Proof.
  induction es as [|e es IH]; [constructor|].
  rewrite purge_events_cons. apply Forall_app. split; [|done].
  destruct (orphan local_files e); repeat constructor.
Qed.

Lemma upload_events_no_remove b yadisk_files fs :
  Forall (fun ev => is_remove ev = false) (upload_events b yadisk_files fs).
Proof.
  induction fs as [|f fs IH]; [constructor|].
  rewrite upload_events_cons. apply Forall_app. split; [|done].
  destruct (missing yadisk_files f); repeat constructor.
Qed.

(** In a list made of a part without [Q] followed by a part without
    [P], whatever satisfies [P] comes before whatever satisfies [Q]. *)
Lemma phases_ordered {A} (P Q : A -> bool) (pre post : list A) i j x y :
  Forall (fun a => Q a = false) pre ->
  Forall (fun a => P a = false) post ->
  (pre ++ post) !! i = Some x -> Q x = true ->
  (pre ++ post) !! j = Some y -> P y = true ->
  (j < i)%nat.
Proof.
  intros Hpre Hpost Hi HQ Hj HP.
  destruct (decide (i < length pre)%nat) as [Hlt|Hge].
  - rewrite lookup_app_l in Hi by done.
    pose proof (Forall_lookup_1 _ _ _ _ Hpre Hi) as HQ'. cbn in HQ'. congruence.
  - destruct (decide (j < length pre)%nat) as [Hlt'|Hge']; [lia|].
    rewrite lookup_app_r in Hj by lia.
    pose proof (Forall_lookup_1 _ _ _ _ Hpost Hj) as HP'. cbn in HP'. congruence.
Qed.

(** * The claims *)

(** ** Canonical names *)

(** C1, evaluated on the code: the canonical name is computed by
    [replace], which removes every occurrence of ['.tgz'], not only a
    trailing one.  ["a.tgz.bak"] does not end in the suffix, yet its
    canonical name is ["a.bak"] and not the name itself, and the run
    uploads it under that name; for ["a.tgz.tgz"] the canonical name is
    ["a"], where removing the suffix once from the end gives
    ["a.tgz"]. *)
Theorem C1_canonical_name_removes_every_occurrence :
  Str.endswith TGZ "a.tgz.bak" = false
  /\ canonical_name "a.tgz.bak" = "a.bak"
  /\ Str.removesuffix TGZ "a.tgz.bak" = "a.tgz.bak"
  /\ upload_targets (journal (sync (World Sample.local_bak ∅ [])).2) = ["a.bak"]
  /\ canonical_name "a.tgz.tgz" = "a"
  /\ Str.removesuffix TGZ "a.tgz.tgz" = "a.tgz"
  /\ upload_targets (journal (sync (World Sample.local_nested ∅ [])).2) = ["a"].
Proof. repeat split; vm_compute; reflexivity. Qed.

(** ** Disjointness *)

(** C2 as stated fails: with the local file ["a"] (no extension) and
    the remote file ["a"], one run removes ["a"] and then uploads to
    ["a"]. *)
Lemma C2_counterexample :
  deleted_names (journal (sync (World Sample.local_bare Sample.remote_a [])).2) = ["a"]
  /\ upload_targets (journal (sync (World Sample.local_bare Sample.remote_a [])).2) = ["a"].
Proof. split; vm_compute; reflexivity. Qed.

(** C2, amended: when every local file has its archive name in the
    local listing, no entry name is both removed and uploaded to by one
    run. *)
Theorem C2_deleted_disjoint_from_uploaded b d :
  archived b ->
  forall n, n ∈ deleted_names (journal (sync (World b d [])).2) ->
            n ∉ upload_targets (journal (sync (World b d [])).2).
Proof.
  intros Harch n. rewrite sync_journal.
  intros [_ Hdel]%elem_of_deleted_names [f [Hf [Hc _]]]%elem_of_upload_targets.
  apply Hdel. rewrite <- Hc. apply Harch. by apply elem_of_local_names.
Qed.

Lemma C2_witness :
  "c" ∈ deleted_names (journal (sync (World Sample.local_ab Sample.remote_acd [])).2)
  /\ "c" ∉ upload_targets (journal (sync (World Sample.local_ab Sample.remote_acd [])).2).
Proof.
  assert (Hdel : "c" ∈ deleted_names
                   (journal (sync (World Sample.local_ab Sample.remote_acd [])).2)).
  { vm_compute. apply list_elem_of_here. }
  split; [exact Hdel|].
  apply (C2_deleted_disjoint_from_uploaded Sample.local_ab Sample.remote_acd);
    [|exact Hdel].
  apply archivedb_archived. vm_compute. reflexivity.
Defined.

(** ** Idempotence *)

(** C3 as stated fails: with the local file ["a"] (no extension) and an
    empty remote folder, the first run uploads ["a"]; the second run, on
    the resulting folder, removes ["a"] and uploads it again. *)
Lemma C3_counterexample :
  (sync (World Sample.local_bare ∅ [])).1 = Return tt
  /\ mutations
       (journal
          (sync (World (backups (sync (World Sample.local_bare ∅ [])).2)
                       (app_backups (sync (World Sample.local_bare ∅ [])).2) [])).2)
     = [YadiskRemove "app:/mc/backups/a" true;
        YadiskUpload [Byte.x01] "app:/mc/backups/a"].
Proof. split; vm_compute; reflexivity. Qed.

(** C3, amended: when every local file has its archive name in the
    local listing, a run returns, and a second run on the folder it
    leaves and the same local directory returns too and makes no
    removal and no upload. *)
Theorem C3_second_run_makes_no_mutation b d :
  archived b ->
  (sync (World b d [])).1 = Return tt
  /\ (sync (World (backups (sync (World b d [])).2)
                  (app_backups (sync (World b d [])).2) [])).1 = Return tt
  /\ mutations
       (journal
          (sync (World (backups (sync (World b d [])).2)
                       (app_backups (sync (World b d [])).2) [])).2) = [].
Proof.
  intros Harch. split; [apply sync_returns|]. split; [apply sync_returns|].
  rewrite sync_local, sync_remote, sync_journal. unfold run_events.
  rewrite purge_events_nil, upload_events_nil; [done| |].
  - intros f Hf. unfold missing. rewrite bool_decide_eq_true_2; [done|].
    apply elem_of_keep_list. split; [|by apply Harch].
    apply run_remote_covers. by apply elem_of_local_names.
  - intros e He. apply elem_of_listing in He as [r [Hr Hty]].
    unfold orphan. rewrite Hty. destruct r as [x|]; [|done].
    rewrite bool_decide_eq_true_2; [done|].
    apply run_remote_file in Hr as [[f [Hf <-]]|Hl]; [|done].
    apply Harch. by apply elem_of_local_names.
Qed.

Lemma C3_witness :
  (sync (World Sample.local_ab Sample.remote_acd [])).1 = Return tt
  /\ (sync (World (backups (sync (World Sample.local_ab Sample.remote_acd [])).2)
                  (app_backups (sync (World Sample.local_ab Sample.remote_acd [])).2)
                  [])).1 = Return tt
  /\ mutations
       (journal
          (sync (World (backups (sync (World Sample.local_ab Sample.remote_acd [])).2)
                       (app_backups (sync (World Sample.local_ab Sample.remote_acd [])).2)
                       [])).2) = [].
Proof.
  apply (C3_second_run_makes_no_mutation Sample.local_ab Sample.remote_acd).
  apply archivedb_archived. vm_compute. reflexivity.
Defined.

(** ** The keep set *)

(** C4 as stated fails: the local file ["a"] has the canonical name
    ["a"], the name of the remote file, and the remote file is removed
    all the same (and uploaded again). *)
Lemma C4_counterexample :
  canonical_name "a" = "a"
  /\ local_names Sample.local_bare = ["a"]
  /\ Sample.remote_a !! "a" = Some (RFile [Byte.x02])
  /\ deleted_names (journal (sync (World Sample.local_bare Sample.remote_a [])).2) = ["a"].
Proof. repeat split; vm_compute; reflexivity. Qed.

(** C4, amended: a remote file [r] is left untouched by a run (neither
    removed nor uploaded to) if and only if the local listing has the
    name [r] followed by ['.tgz']; it then still holds the same bytes
    after the run. *)
Theorem C4_untouched_iff_archive_listed b d r x :
  d !! r = Some (RFile x) ->
  (((r ∉ deleted_names (journal (sync (World b d [])).2))
    /\ r ∉ upload_targets (journal (sync (World b d [])).2))
   <-> r +:+ TGZ ∈ local_names b)
  /\ (r +:+ TGZ ∈ local_names b ->
      app_backups (sync (World b d [])).2 !! r = Some (RFile x)).
Proof.
  intros Hr. rewrite sync_journal, sync_remote.
  assert (Hkeep : r +:+ TGZ ∈ local_names b ->
                  r ∈ keep_list (local_names b) (listing d)).
  { intros Hl. apply elem_of_keep_list. split; [by exists x|done]. }
  split; [split|].
  - intros [Hdel _]. destruct (decide (r +:+ TGZ ∈ local_names b)) as [|Hl]; [done|].
    exfalso. apply Hdel, elem_of_deleted_names. split; [by exists x|done].
  - intros Hl. split.
    + intros [_ Hn]%elem_of_deleted_names. by apply Hn.
    + intros [f [_ [_ Hk]]]%elem_of_upload_targets. by apply Hk, Hkeep.
  - intros Hl. rewrite run_remote_lookup.
    destruct (last (uploads_to r (run_events b d))) as [y|] eqn:Hlast.
    + apply last_Some_elem_of, elem_of_uploads_to in Hlast as [f [_ [_ Hk]]].
      exfalso. by apply Hk, Hkeep.
    + by rewrite Hr, bool_decide_eq_true_2.
Qed.

Lemma C4_witness :
  ((("a" ∉ deleted_names (journal (sync (World Sample.local_ab Sample.remote_acd [])).2))
    /\ "a" ∉ upload_targets (journal (sync (World Sample.local_ab Sample.remote_acd [])).2))
   <-> "a" +:+ TGZ ∈ local_names Sample.local_ab)
  /\ ("a" +:+ TGZ ∈ local_names Sample.local_ab ->
      app_backups (sync (World Sample.local_ab Sample.remote_acd [])).2 !! "a"
      = Some (RFile [Byte.x01])).
Proof.
  apply (C4_untouched_iff_archive_listed Sample.local_ab Sample.remote_acd "a" [Byte.x01]).
  vm_compute. reflexivity.
Defined.

(** ** Purge *)

(** C5, evaluated on the code: with the local file ["a.tgz.tgz"] and the
    remote file ["a.tgz"], the remote loop keeps ["a.tgz"] (its name
    followed by ['.tgz'] is local) and the local loop uploads the same
    file again as ["a"].  After the run the folder holds both, for one
    local file: ["a.tgz"] is the canonical name of no local file, and
    ["a"] is no local name with its suffix removed. *)
Theorem C5_kept_file_without_canonical_counterpart :
  (sync (World Sample.local_nested Sample.remote_atgz [])).1 = Return tt
  /\ canonical_name <$> local_names Sample.local_nested = ["a"]
  /\ Str.removesuffix TGZ <$> local_names Sample.local_nested = ["a.tgz"]
  /\ app_backups (sync (World Sample.local_nested Sample.remote_atgz [])).2 !! "a.tgz"
     = Some (RFile [Byte.x02])
  /\ app_backups (sync (World Sample.local_nested Sample.remote_atgz [])).2 !! "a"
     = Some (RFile [Byte.x01])
  /\ mutations (journal (sync (World Sample.local_nested Sample.remote_atgz [])).2)
     = [YadiskUpload [Byte.x01] "app:/mc/backups/a"].
Proof. repeat split; vm_compute; reflexivity. Qed.

(** ** Ordering *)

(** C6: in the journal of a run every removal comes before every
    upload. *)
Theorem C6_removals_before_uploads b d i j data dst path permanently :
  journal (sync (World b d [])).2 !! i = Some (YadiskUpload data dst) ->
  journal (sync (World b d [])).2 !! j = Some (YadiskRemove path permanently) ->
  (j < i)%nat.
Proof.
  rewrite sync_journal. unfold run_events. rewrite (app_assoc [_]).
  intros Hi Hj.
  eapply (phases_ordered is_remove is_upload); [| |exact Hi|done|exact Hj|done].
  - apply Forall_app. split; [repeat constructor|apply purge_events_no_upload].
  - apply Forall_app. split; [apply upload_events_no_remove|repeat constructor].
Qed.

Lemma C6_witness :
  journal (sync (World Sample.local_ab Sample.remote_acd [])).2 !! 3%nat
  = Some (YadiskUpload [Byte.x02] "app:/mc/backups/b")
  /\ journal (sync (World Sample.local_ab Sample.remote_acd [])).2 !! 1%nat
     = Some (YadiskRemove "app:/mc/backups/c" true)
  /\ (1 < 3)%nat.
Proof.
  assert (Hi : journal (sync (World Sample.local_ab Sample.remote_acd [])).2 !! 3%nat
               = Some (YadiskUpload [Byte.x02] "app:/mc/backups/b")).
  { vm_compute. reflexivity. }
  assert (Hj : journal (sync (World Sample.local_ab Sample.remote_acd [])).2 !! 1%nat
               = Some (YadiskRemove "app:/mc/backups/c" true)).
  { vm_compute. reflexivity. }
  split; [exact Hi|]. split; [exact Hj|].
  exact (C6_removals_before_uploads _ _ _ _ _ _ _ _ Hi Hj).
Defined.

(** ** Empty listings *)






(** ** The end of the process *)

(** C8 as stated fails: an exception other than the interrupt, raised
    by the run, is caught and logged with its trace, and the process
    then ends with status 0. *)
Lemma C8_counterexample :
  main_guard (raise (Exception "OSError")) (World ∅ ∅ [])
  = (Exit 0, World ∅ ∅ [LoggingException (Exception "OSError") true]).
Proof. reflexivity. Qed.

(** C8, amended: when the run ends by a [KeyboardInterrupt] the process
    exits with status 1 and nothing is logged; when it ends by an
    exception derived from [Exception], the exception is caught and
    logged with its trace, and the process ends with status 0. *)
Theorem C8_main_guard (main : M unit) w w' :
  (main w = (Raise KeyboardInterrupt, w') -> main_guard main w = (Exit 1, w'))
  /\ (forall cls,
         main w = (Raise (Exception cls), w') ->
         main_guard main w
         = (Exit 0,
            World (backups w') (app_backups w')
                  (journal w' ++ [LoggingException (Exception cls) true]))).
Proof.
  split.
  - intros H. unfold main_guard. by rewrite H.
  - intros cls H. unfold main_guard. by rewrite H.
Qed.

Lemma C8_witness :
  main_guard (raise KeyboardInterrupt) (World ∅ ∅ []) = (Exit 1, World ∅ ∅ [])
  /\ main_guard (raise (Exception "OSError")) (World ∅ ∅ [])
     = (Exit 0, World ∅ ∅ ([] ++ [LoggingException (Exception "OSError") true])).
Proof.
  split.
  - apply (proj1 (C8_main_guard (raise KeyboardInterrupt) (World ∅ ∅ []) (World ∅ ∅ []))).
    reflexivity.
  - apply (proj2 (C8_main_guard (raise (Exception "OSError"))
                                (World ∅ ∅ []) (World ∅ ∅ []))).
    reflexivity.
Defined.

(** ** Local files with the same canonical name *)

Lemma two_elements {A} (l : list A) x y : x ∈ l -> y ∈ l -> x <> y -> (2 <= length l)%nat.
Proof.
  destruct l as [|a [|a' l]]; cbn; intros Hx Hy Hne; [|exfalso|lia].
  - by apply not_elem_of_nil in Hx.
  - apply list_elem_of_singleton in Hx, Hy. congruence.
Qed.

(** C9: when two local files have the same canonical name [c] and the
    remote folder has no entry [c], the run returns; every local file
    with the canonical name [c] is uploaded to [c], one upload each, in
    the order of the local listing (so at least two uploads, none of
    them held back by an earlier one); and the entry [c] ends with the
    bytes of the last of these uploads. *)
Theorem C9_same_canonical_name_last_upload_wins b d f1 f2 c :
  f1 <> f2 ->
  is_Some (b !! f1) -> is_Some (b !! f2) ->
  canonical_name f1 = c -> canonical_name f2 = c ->
  d !! c = None ->
  (sync (World b d [])).1 = Return tt
  /\ uploads_to c (journal (sync (World b d [])).2)
     = (fun f => default [] (b !! f))
         <$> filter (fun f => canonical_name f = c) (local_names b)
  /\ (2 <= length (uploads_to c (journal (sync (World b d [])).2)))%nat
  /\ app_backups (sync (World b d [])).2 !! c
     = RFile <$> last (uploads_to c (journal (sync (World b d [])).2)).
Proof.
  intros Hne H1 H2 Hc1 Hc2 Hd. split; [apply sync_returns|].
  rewrite sync_journal, sync_remote.
  assert (Hk : c ∉ keep_list (local_names b) (listing d)).
  { intros [[x Hx] _]%elem_of_keep_list. congruence. }
  assert (Hup : uploads_to c (run_events b d)
                = (fun f => default [] (b !! f))
                    <$> filter (fun f => canonical_name f = c) (local_names b)).
  { rewrite uploads_to_run. unfold contents_for. f_equal.
    apply list_filter_iff. intros f. split; [by intros [_ ?]|].
    intros Hc. split; [|done]. unfold missing. rewrite Hc.
    by rewrite bool_decide_eq_false_2. }
  assert (Hlen : (2 <= length (uploads_to c (run_events b d)))%nat).
  { rewrite Hup, length_fmap. apply (two_elements _ f1 f2); [| |done].
    - apply list_elem_of_filter. split; [done|]. by apply elem_of_local_names.
    - apply list_elem_of_filter. split; [done|]. by apply elem_of_local_names. }
  split; [done|]. split; [done|].
  rewrite run_remote_lookup.
  destruct (last (uploads_to c (run_events b d))) as [y|] eqn:Hlast; [done|].
  apply last_None in Hlast. rewrite Hlast in Hlen. cbn in Hlen. lia.
Qed.

Lemma C9_witness :
  (sync (World Sample.local_pp ∅ [])).1 = Return tt
  /\ uploads_to "p" (journal (sync (World Sample.local_pp ∅ [])).2)
     = (fun f => default [] (Sample.local_pp !! f))
         <$> filter (fun f => canonical_name f = "p") (local_names Sample.local_pp)
  /\ (2 <= length (uploads_to "p" (journal (sync (World Sample.local_pp ∅ [])).2)))%nat
  /\ app_backups (sync (World Sample.local_pp ∅ [])).2 !! "p"
     = RFile <$> last (uploads_to "p" (journal (sync (World Sample.local_pp ∅ [])).2)).
Proof.
  apply (C9_same_canonical_name_last_upload_wins Sample.local_pp ∅ "p.tgz" "p" "p").
  - discriminate.
  - vm_compute. eexists. reflexivity.
  - vm_compute. eexists. reflexivity.
  - reflexivity.
  - reflexivity.
  - reflexivity.
Defined.

(** ** Remote directories *)

Lemma upload_event_in_run b d f data :
  b !! f = Some data ->
  canonical_name f ∉ keep_list (local_names b) (listing d) ->
  YadiskUpload data (remote_path (canonical_name f)) ∈ run_events b d.
Proof.
  intros Hf Hk. unfold run_events.
  apply elem_of_app. right. apply elem_of_app. right. apply elem_of_app. left.
  unfold upload_events. apply list_elem_of_bind. exists f.
  split; [|apply elem_of_local_names; by exists data].
  unfold missing. rewrite bool_decide_eq_false_2 by done. cbn [negb].
  rewrite Hf. left.
Qed.

(** C10: a remote directory [n] is passed over by the run: the remote
    loop returns with [n] not in its list [yadisk_files] and the
    directory still in place, no removal names [n], and every local
    file with the canonical name [n] is uploaded to [n]. *)
Theorem C10_directories_are_passed_over b d n :
  d !! n = Some RDir ->
  (exists yadisk_files w1,
      for_fold (listing d) [] (purge_body (local_names b)) (World b d [])
      = (Return yadisk_files, w1)
      /\ (n ∉ yadisk_files)
      /\ app_backups w1 !! n = Some RDir)
  /\ (n ∉ deleted_names (journal (sync (World b d [])).2))
  /\ (forall f data,
         b !! f = Some data -> canonical_name f = n ->
         YadiskUpload data (remote_path n) ∈ journal (sync (World b d [])).2).
Proof.
  intros Hd.
  assert (Hk : n ∉ keep_list (local_names b) (listing d)).
  { intros [[x Hx] _]%elem_of_keep_list. congruence. }
  split; [|split].
  - eexists _, _. split; [apply purge_run|]. split; [done|].
    cbn [app_backups]. by rewrite run_purged_lookup, Hd.
  - rewrite sync_journal. intros [[x Hx] _]%elem_of_deleted_names. congruence.
  - intros f data Hf <-. rewrite sync_journal. by apply upload_event_in_run.
Qed.

Lemma C10_witness :
  (exists yadisk_files w1,
      for_fold (listing Sample.remote_dir) [] (purge_body (local_names Sample.local_d))
               (World Sample.local_d Sample.remote_dir [])
      = (Return yadisk_files, w1)
      /\ ("d" ∉ yadisk_files)
      /\ app_backups w1 !! "d" = Some RDir)
  /\ ("d" ∉ deleted_names (journal (sync (World Sample.local_d Sample.remote_dir [])).2))
  /\ (forall f data,
         Sample.local_d !! f = Some data -> canonical_name f = "d" ->
         YadiskUpload data (remote_path "d")
           ∈ journal (sync (World Sample.local_d Sample.remote_dir [])).2).
Proof.
  apply (C10_directories_are_passed_over Sample.local_d Sample.remote_dir "d").
  vm_compute. reflexivity.
Defined.

(** * Further properties of the run *)

(** ** The events of the two loops *)

Lemma elem_of_purge_events local_files es ev :
  ev ∈ purge_events local_files es <->
  exists e, e ∈ es /\ orphan local_files e = true
            /\ (ev = YadiskRemove (remote_path (name e)) true
                \/ ev = LoggingInfo (deleted_msg (name e))).
Proof.
  unfold purge_events. rewrite list_elem_of_bind. split.
  - intros [e [Hev He]]. exists e. split; [done|].
    destruct (orphan local_files e); [|by apply not_elem_of_nil in Hev].
    split; [done|]. apply elem_of_cons in Hev as [->|Hev]; [by left|].
    apply list_elem_of_singleton in Hev as ->. by right.
  - intros [e [He [Ho Hev]]]. exists e. split; [|done]. rewrite Ho.
    destruct Hev as [->| ->]; [left|right; left].
Qed.

Lemma elem_of_upload_events b yadisk_files fs ev :
  ev ∈ upload_events b yadisk_files fs <->
  exists f, f ∈ fs /\ missing yadisk_files f = true
            /\ (ev = YadiskUpload (default [] (b !! f)) (remote_path (canonical_name f))
                \/ ev = LoggingInfo (uploaded_msg (canonical_name f))).
Proof.
  unfold upload_events. rewrite list_elem_of_bind. split.
  - intros [f [Hev Hf]]. exists f. split; [done|].
    destruct (missing yadisk_files f); [|by apply not_elem_of_nil in Hev].
    split; [done|]. apply elem_of_cons in Hev as [->|Hev]; [by left|].
    apply list_elem_of_singleton in Hev as ->. by right.
  - intros [f [Hf [Hm Hev]]]. exists f. split; [|done]. rewrite Hm.
    destruct Hev as [->| ->]; [left|right; left].
Qed.

Lemma orphan_listed b d e :
  e ∈ listing d -> orphan (local_names b) e = true ->
  (exists x, d !! name e = Some (RFile x)) /\ name e +:+ TGZ ∉ local_names b.
Proof.
  intros [r [Hr Hty]]%elem_of_listing Ho. unfold orphan in Ho.
  apply andb_true_iff in Ho as [Hf Hl]. rewrite Hty in Hf.
  apply type_of_file in Hf as [x ->]. split; [by exists x|].
  apply negb_true_iff, bool_decide_eq_false_1 in Hl. done.
Qed.

Lemma remove_in_run b d p permanently :
  YadiskRemove p permanently ∈ run_events b d <->
  permanently = true
  /\ exists n x, p = remote_path n /\ d !! n = Some (RFile x)
                 /\ n +:+ TGZ ∉ local_names b.
Proof.
  unfold run_events. rewrite !elem_of_app, !list_elem_of_singleton.
  rewrite elem_of_purge_events, elem_of_upload_events. split.
  - intros [?|[[e [He [Ho Hev]]]|[[f [_ [_ [?|?]]]]|?]]]; try done.
    destruct Hev as [Hev|?]; [|done]. injection Hev as -> ->.
    destruct (orphan_listed _ _ _ He Ho) as [[x Hx] Hl].
    split; [done|]. by exists (name e), x.
  - intros [-> [n [x [-> [Hx Hl]]]]]. right. left.
    exists {| name := n; type := "file" |}. split; [|split; [|by left]].
    + apply elem_of_listing. by exists (RFile x).
    + unfold orphan. cbn. by rewrite bool_decide_eq_false_2.
Qed.

Lemma upload_in_run b d data p :
  YadiskUpload data p ∈ run_events b d <->
  exists f, b !! f = Some data /\ p = remote_path (canonical_name f)
            /\ canonical_name f ∉ keep_list (local_names b) (listing d).
Proof.
  split.
  - unfold run_events. rewrite !elem_of_app, !list_elem_of_singleton.
    rewrite elem_of_purge_events, elem_of_upload_events.
    intros [?|[[e [_ [_ [?|?]]]]|[[f [Hf [Hm Hev]]]|?]]]; try done.
    destruct Hev as [Hev|?]; [|done]. injection Hev as -> ->.
    apply elem_of_local_names in Hf as [x Hx]. exists f. rewrite Hx.
    split; [done|]. split; [done|].
    unfold missing in Hm. by apply negb_true_iff, bool_decide_eq_false_1 in Hm.
  - intros [f [Hf [-> Hk]]]. by apply upload_event_in_run.
Qed.

(** ** What a run leaves alone *)

(** X1: [sync] leaves the local directory as it was, and it never
    rewrites the journal: the records made before the run stay, in
    order, and the run only appends to them. *)
Theorem X1_sync_keeps_local_and_appends w :
  backups (sync w).2 = backups w
  /\ journal w `prefix_of` journal (sync w).2.
Proof.
  destruct w as [b d jr]. rewrite sync_run. cbn.
  split; [done|]. by exists (run_events b d).
Qed.

(** X2: a remote directory that is the canonical name of no local file
    is still a directory after the run. *)
Theorem X2_directories_stay b d jr n :
  d !! n = Some RDir ->
  (forall f, f ∈ local_names b -> canonical_name f <> n) ->
  app_backups (sync (World b d jr)).2 !! n = Some RDir.
Proof.
  intros Hd Hno. rewrite sync_remote, run_remote_lookup.
  destruct (last (uploads_to n (run_events b d))) as [y|] eqn:Hlast.
  - apply last_Some_elem_of, elem_of_uploads_to in Hlast as [f [Hf [Hc _]]].
    exfalso. apply (Hno f); [|done]. apply elem_of_local_names. by exists y.
  - by rewrite Hd.
Qed.

Lemma X2_witness :
  app_backups (sync (World Sample.local_ab Sample.remote_acd [])).2 !! "d" = Some RDir.
Proof.
  apply (X2_directories_stay Sample.local_ab Sample.remote_acd [] "d").
  - vm_compute. reflexivity.
  - intros f Hf. vm_compute in Hf.
    apply elem_of_cons in Hf as [->|Hf]; [discriminate|].
    apply list_elem_of_singleton in Hf as ->. discriminate.
Defined.

(** ** The remote folder after a run *)

Lemma run_remote_file_iff b d n :
  (exists x, run_remote b d !! n = Some (RFile x))
  <-> (exists f, f ∈ local_names b /\ canonical_name f = n)
      \/ ((exists x, d !! n = Some (RFile x)) /\ n +:+ TGZ ∈ local_names b).
Proof.
  split.
  - intros [x Hx]. rewrite run_remote_lookup in Hx.
    destruct (last (uploads_to n (run_events b d))) as [y|] eqn:Hlast.
    + left. apply last_Some_elem_of, elem_of_uploads_to in Hlast as [f [Hf [Hc _]]].
      exists f. split; [|done]. apply elem_of_local_names. by exists y.
    + destruct (d !! n) as [[x'|]|]; [|done|done].
      destruct (bool_decide (n +:+ TGZ ∈ local_names b)) eqn:Hl; [|done].
      right. split; [by exists x'|]. by apply bool_decide_eq_true_1 in Hl.
  - intros [[f [Hf <-]]|[[x Hx] Hl]].
    + apply run_remote_covers. by apply elem_of_local_names.
    + rewrite run_remote_lookup.
      destruct (last (uploads_to n (run_events b d))) as [y|]; [by exists y|].
      rewrite Hx, bool_decide_eq_true_2 by done. by exists x.
Qed.

(** X3: after a run, [n] is a remote file if and only if it is the
    canonical name of a local file, or it was a remote file before and
    its name followed by ['.tgz'] is a local name.  In particular every
    local file has a remote file under its canonical name. *)
Theorem X3_files_after_run b d jr n :
  (exists x, app_backups (sync (World b d jr)).2 !! n = Some (RFile x))
  <-> (exists f, f ∈ local_names b /\ canonical_name f = n)
      \/ ((exists x, d !! n = Some (RFile x)) /\ n +:+ TGZ ∈ local_names b).
Proof. rewrite sync_remote. apply run_remote_file_iff. Qed.

(** ** Archive names *)

Lemma app_tgz_inj s t : s +:+ TGZ = t +:+ TGZ -> s = t.
Proof.
  intros H. apply (f_equal (Str.removesuffix TGZ)) in H.
  by rewrite !removesuffix_app in H.
Qed.

Lemma archive_names_canonical b f :
  archive_names b -> f ∈ local_names b -> f = canonical_name f +:+ TGZ.
Proof.
  intros Ha Hf. destruct (Ha f Hf) as [c [-> Hc]]. by rewrite canonical_name_archive.
Qed.

(** X4: when every local name is an archive name, the files of the
    remote folder after a run are exactly the local names without their
    ['.tgz']: [n] is a remote file if and only if [n] followed by
    ['.tgz'] is a local name. *)
Theorem X4_mirror_of_archive_names b d jr :
  archive_names b ->
  forall n, (exists x, app_backups (sync (World b d jr)).2 !! n = Some (RFile x))
            <-> n +:+ TGZ ∈ local_names b.
Proof.
  intros Ha n. rewrite sync_remote, run_remote_file_iff. split.
  - intros [[f [Hf <-]]|[_ Hl]]; [|done].
    by rewrite <- (archive_names_canonical b f).
  - intros Hl. left. exists (n +:+ TGZ). split; [done|].
    apply app_tgz_inj. by rewrite <- (archive_names_canonical b (n +:+ TGZ)).
Qed.

Lemma X4_witness :
  (exists x,
      app_backups (sync (World Sample.local_ab Sample.remote_acd [])).2 !! "b"
      = Some (RFile x))
  <-> "b" +:+ TGZ ∈ local_names Sample.local_ab.
Proof.
  apply (X4_mirror_of_archive_names Sample.local_ab Sample.remote_acd []).
  intros f Hf. vm_compute in Hf.
  apply elem_of_cons in Hf as [->|Hf]; [by exists "a"|].
  apply list_elem_of_singleton in Hf as ->. by exists "b".
Defined.

(** X5: when every local name is an archive name, the remote file of
    the local archive [n.tgz] holds, after the run, the bytes it held
    before if [n] was a remote file already (its content is not
    compared and not refreshed), and the bytes of the local archive
    otherwise. *)
Theorem X5_content_after_run b d jr n data :
  archive_names b ->
  b !! (n +:+ TGZ) = Some data ->
  app_backups (sync (World b d jr)).2 !! n
  = Some (RFile (match d !! n with Some (RFile x) => x | _ => data end)).
Proof.
  intros Ha Hb. rewrite sync_remote, run_remote_lookup.
  assert (Hl : n +:+ TGZ ∈ local_names b) by (apply elem_of_local_names; by exists data).
  assert (Hc : canonical_name (n +:+ TGZ) = n).
  { apply app_tgz_inj. by rewrite <- (archive_names_canonical b (n +:+ TGZ)). }
  destruct (last (uploads_to n (run_events b d))) as [y|] eqn:Hlast.
  - apply last_Some_elem_of, elem_of_uploads_to in Hlast as [f [Hf [Hcf Hk]]].
    assert (f = n +:+ TGZ) as ->.
    { rewrite (archive_names_canonical b f Ha), Hcf; [done|].
      apply elem_of_local_names. by exists y. }
    assert (y = data) as -> by congruence.
    destruct (d !! n) as [[x|]|] eqn:Hd; [|done|done].
    exfalso. apply Hk, elem_of_keep_list. split; [by exists x|done].
  - apply last_None in Hlast.
    destruct (d !! n) as [[x|]|] eqn:Hd.
    + by rewrite bool_decide_eq_true_2.
    + exfalso. assert (Hin : data ∈ uploads_to n (run_events b d)).
      { apply elem_of_uploads_to. exists (n +:+ TGZ). split; [done|]. split; [done|].
        intros [[x Hx] _]%elem_of_keep_list. congruence. }
      rewrite Hlast in Hin. by apply not_elem_of_nil in Hin.
    + exfalso. assert (Hin : data ∈ uploads_to n (run_events b d)).
      { apply elem_of_uploads_to. exists (n +:+ TGZ). split; [done|]. split; [done|].
        intros [[x Hx] _]%elem_of_keep_list. congruence. }
      rewrite Hlast in Hin. by apply not_elem_of_nil in Hin.
Qed.

Lemma X5_witness :
  app_backups (sync (World Sample.local_ab Sample.remote_acd [])).2 !! "b"
  = Some (RFile (match Sample.remote_acd !! "b" with
                 | Some (RFile x) => x
                 | _ => [Byte.x02]
                 end)).
Proof.
  apply (X5_content_after_run Sample.local_ab Sample.remote_acd [] "b" [Byte.x02]).
  - intros f Hf. vm_compute in Hf.
    apply elem_of_cons in Hf as [->|Hf]; [by exists "a"|].
    apply list_elem_of_singleton in Hf as ->. by exists "b".
  - vm_compute. reflexivity.
Defined.

(** ** The calls of a run *)

(** X6: the run uploads the bytes of local files only, each to its
    canonical name, and only when that name is not a remote file kept by
    the first loop: an upload of [data] to [p] is in the journal if and
    only if some local file [f] holds [data], [p] is the remote path of
    its canonical name, and that name is not a remote file whose archive
    name is local. *)
Theorem X6_uploads_of_a_run b d data p :
  YadiskUpload data p ∈ journal (sync (World b d [])).2
  <-> exists f, b !! f = Some data
                /\ p = APP_BACKUPS_DIR +:+ "/" +:+ canonical_name f
                /\ ~ ((exists x, d !! canonical_name f = Some (RFile x))
                      /\ canonical_name f +:+ TGZ ∈ local_names b).
Proof.
  rewrite sync_journal, upload_in_run.
  split; intros [f [Hf [Hp Hk]]]; exists f; (split; [done|]); (split; [done|]);
    by rewrite ?elem_of_keep_list in *.
Qed.

(** X7: the run removes remote files only, never a directory, always
    permanently, and only those whose name followed by ['.tgz'] is not a
    local name; no entry is removed twice. *)
Theorem X7_removals_of_a_run b d :
  (forall p permanently,
      YadiskRemove p permanently ∈ journal (sync (World b d [])).2
      <-> permanently = true
          /\ exists n x, p = APP_BACKUPS_DIR +:+ "/" +:+ n
                         /\ d !! n = Some (RFile x)
                         /\ n +:+ TGZ ∉ local_names b)
  /\ NoDup (deleted_names (journal (sync (World b d [])).2)).
Proof.
  rewrite sync_journal. split; [intros p perm; apply remove_in_run|].
  rewrite deleted_names_run.
  eapply sublist_NoDup; [|apply fmap_sublist, sublist_filter; apply _].
  rewrite listing_names. apply NoDup_fst_map_to_list.
Qed.

(** ** The records of a run *)

Lemma purge_events_split local_files es p permanently :
  YadiskRemove p permanently ∈ purge_events local_files es ->
  exists pre post n,
    purge_events local_files es
    = pre ++ [YadiskRemove p permanently; LoggingInfo (deleted_msg n)] ++ post
    /\ p = remote_path n.
Proof.
  induction es as [|e es IH]; [by intros ?%not_elem_of_nil|].
  rewrite purge_events_cons, elem_of_app. intros [Hin|Hin].
  - destruct (orphan local_files e); [|by apply not_elem_of_nil in Hin].
    apply elem_of_cons in Hin as [Heq|Hin].
    + injection Heq as -> ->. by exists [], (purge_events local_files es), (name e).
    + by apply list_elem_of_singleton in Hin.
  - destruct (IH Hin) as (pre & post & n & -> & ->).
    exists ((if orphan local_files e
             then [YadiskRemove (remote_path (name e)) true;
                   LoggingInfo (deleted_msg (name e))]
             else []) ++ pre), post, n.
    by rewrite <- app_assoc.
Qed.

Lemma upload_events_split b yadisk_files fs data p :
  YadiskUpload data p ∈ upload_events b yadisk_files fs ->
  exists pre post n,
    upload_events b yadisk_files fs
    = pre ++ [YadiskUpload data p; LoggingInfo (uploaded_msg n)] ++ post
    /\ p = remote_path n.
Proof.
  induction fs as [|f fs IH]; [by intros ?%not_elem_of_nil|].
  rewrite upload_events_cons, elem_of_app. intros [Hin|Hin].
  - destruct (missing yadisk_files f); [|by apply not_elem_of_nil in Hin].
    apply elem_of_cons in Hin as [Heq|Hin].
    + injection Heq as -> ->.
      by exists [], (upload_events b yadisk_files fs), (canonical_name f).
    + by apply list_elem_of_singleton in Hin.
  - destruct (IH Hin) as (pre & post & n & -> & ->).
    exists ((if missing yadisk_files f
             then [YadiskUpload (default [] (b !! f)) (remote_path (canonical_name f));
                   LoggingInfo (uploaded_msg (canonical_name f))]
             else []) ++ pre), post, n.
    by rewrite <- app_assoc.
Qed.

Lemma purge_events_next local_files es : forall i p permanently,
  purge_events local_files es !! i = Some (YadiskRemove p permanently) ->
  exists n, p = remote_path n
            /\ purge_events local_files es !! S i = Some (LoggingInfo (deleted_msg n)).
Proof.
  induction es as [|e es IH]; intros i p perm; [done|].
  rewrite purge_events_cons. destruct (orphan local_files e); [|apply IH].
  cbn [app]. destruct i as [|[|i]]; cbn.
  - intros [= <- <-]. by exists (name e).
  - done.
  - apply IH.
Qed.

Lemma upload_events_next b yadisk_files fs : forall i data p,
  upload_events b yadisk_files fs !! i = Some (YadiskUpload data p) ->
  exists n, p = remote_path n
            /\ upload_events b yadisk_files fs !! S i = Some (LoggingInfo (uploaded_msg n)).
Proof.
  induction fs as [|f fs IH]; intros i data p; [done|].
  rewrite upload_events_cons. destruct (missing yadisk_files f); [|apply IH].
  cbn [app]. destruct i as [|[|i]]; cbn.
  - intros [= <- <-]. by exists (canonical_name f).
  - done.
  - apply IH.
Qed.

Lemma run_events_remove_next b d i p permanently :
  run_events b d !! i = Some (YadiskRemove p permanently) ->
  exists n, p = remote_path n
            /\ run_events b d !! S i = Some (LoggingInfo (deleted_msg n)).
Proof.
  unfold run_events. cbn [app]. destruct i as [|i]; [done|]. cbn [lookup list_lookup].
  intros [Hin|[_ Hin]]%lookup_app_Some.
  - destruct (purge_events_next _ _ _ _ _ Hin) as [n [-> Hn]].
    exists n. split; [done|]. by apply lookup_app_l_Some.
  - exfalso.
    assert (Hno : Forall (fun ev => is_remove ev = false)
                    (upload_events b (keep_list (local_names b) (listing d)) (local_names b)
                     ++ [LoggingInfo finished_msg])).
    { apply Forall_app. split; [apply upload_events_no_remove|repeat constructor]. }
    by pose proof (Forall_lookup_1 _ _ _ _ Hno Hin).
Qed.

Lemma run_events_upload_next b d i data p :
  run_events b d !! i = Some (YadiskUpload data p) ->
  exists n, p = remote_path n
            /\ run_events b d !! S i = Some (LoggingInfo (uploaded_msg n)).
Proof.
  unfold run_events. cbn [app]. destruct i as [|i]; [done|]. cbn [lookup list_lookup].
  intros [Hin|[Hlen Hin]]%lookup_app_Some.
  - exfalso.
    by pose proof (Forall_lookup_1 _ _ _ _ (purge_events_no_upload _ _) Hin).
  - apply lookup_app_Some in Hin as [Hin|[_ Hin]].
    + destruct (upload_events_next _ _ _ _ _ _ Hin) as [n [-> Hn]].
      exists n. split; [done|].
      assert (Hnext :
        (purge_events (local_names b) (listing d)
         ++ upload_events b (keep_list (local_names b) (listing d)) (local_names b)
         ++ [LoggingInfo finished_msg]) !! S i
        = Some (LoggingInfo (uploaded_msg n))); [|exact Hnext].
      rewrite lookup_app_r by lia.
      replace (S i - length (purge_events (local_names b) (listing d)))%nat
        with (S (i - length (purge_events (local_names b) (listing d)))) by lia.
      by apply lookup_app_l_Some.
    + exfalso. by apply list_lookup_singleton_Some in Hin as [_ ?].
Qed.

(** X8: every mutation is reported right after it is made: in the
    journal of a run each removal of an entry [n] is followed at once by
    the record that [n] was deleted, and each upload to [n] by the record
    that [n] was uploaded; this holds of every removal and every upload
    in the journal, position by position. *)
Theorem X8_mutations_are_logged b d :
  (forall p permanently,
      YadiskRemove p permanently ∈ journal (sync (World b d [])).2 ->
      exists pre post n,
        journal (sync (World b d [])).2
        = pre ++ [YadiskRemove p permanently;
                  LoggingInfo ("File " +:+ dq +:+ n +:+ dq +:+ " deleted from Yandex.Disk.")]
              ++ post
        /\ p = APP_BACKUPS_DIR +:+ "/" +:+ n)
  /\ (forall data p,
         YadiskUpload data p ∈ journal (sync (World b d [])).2 ->
         exists pre post n,
           journal (sync (World b d [])).2
           = pre ++ [YadiskUpload data p;
                     LoggingInfo ("File " +:+ dq +:+ n +:+ dq +:+ " uploaded to "
                                  +:+ "Yandex.Disk.")]
                 ++ post
           /\ p = APP_BACKUPS_DIR +:+ "/" +:+ n)
  /\ (forall i p permanently,
         journal (sync (World b d [])).2 !! i = Some (YadiskRemove p permanently) ->
         exists n,
           p = APP_BACKUPS_DIR +:+ "/" +:+ n
           /\ journal (sync (World b d [])).2 !! S i
              = Some (LoggingInfo ("File " +:+ dq +:+ n +:+ dq
                                   +:+ " deleted from Yandex.Disk.")))
  /\ (forall i data p,
         journal (sync (World b d [])).2 !! i = Some (YadiskUpload data p) ->
         exists n,
           p = APP_BACKUPS_DIR +:+ "/" +:+ n
           /\ journal (sync (World b d [])).2 !! S i
              = Some (LoggingInfo ("File " +:+ dq +:+ n +:+ dq +:+ " uploaded to "
                                   +:+ "Yandex.Disk."))).
Proof.
  rewrite sync_journal. split; [|split; [|split]].
  - unfold run_events.
    intros p perm. rewrite !elem_of_app, !list_elem_of_singleton, elem_of_upload_events.
    intros [?|[Hin|[[f [_ [_ [?|?]]]]|?]]]; try done.
    destruct (purge_events_split _ _ _ _ Hin) as (pre & post & n & Heq & ->).
    exists (LoggingInfo running_msg :: pre),
           (post ++ upload_events b (keep_list (local_names b) (listing d)) (local_names b)
                 ++ [LoggingInfo finished_msg]), n.
    split; [|done]. rewrite Heq. cbn [app]. by rewrite <- !app_assoc.
  - unfold run_events.
    intros data p. rewrite !elem_of_app, !list_elem_of_singleton, elem_of_purge_events.
    intros [?|[[e [_ [_ [?|?]]]]|[Hin|?]]]; try done.
    destruct (upload_events_split _ _ _ _ _ Hin) as (pre & post & n & Heq & ->).
    exists (LoggingInfo running_msg :: purge_events (local_names b) (listing d) ++ pre),
           (post ++ [LoggingInfo finished_msg]), n.
    split; [|done]. rewrite Heq. cbn [app]. by rewrite <- !app_assoc.
  - intros i p perm Hi. by apply (run_events_remove_next b d i p perm).
  - intros i data p Hi. by apply (run_events_upload_next b d i data p).
Qed.

Lemma X8_witness :
  (exists pre post n,
      journal (sync (World Sample.local_ab Sample.remote_acd [])).2
      = pre ++ [YadiskRemove "app:/mc/backups/c" true;
                LoggingInfo ("File " +:+ dq +:+ n +:+ dq +:+ " deleted from Yandex.Disk.")]
            ++ post
      /\ "app:/mc/backups/c" = APP_BACKUPS_DIR +:+ "/" +:+ n)
  /\ (exists pre post n,
         journal (sync (World Sample.local_ab Sample.remote_acd [])).2
         = pre ++ [YadiskUpload [Byte.x02] "app:/mc/backups/b";
                   LoggingInfo ("File " +:+ dq +:+ n +:+ dq +:+ " uploaded to "
                                +:+ "Yandex.Disk.")]
               ++ post
         /\ "app:/mc/backups/b" = APP_BACKUPS_DIR +:+ "/" +:+ n)
  /\ (exists n,
         "app:/mc/backups/c" = APP_BACKUPS_DIR +:+ "/" +:+ n
         /\ journal (sync (World Sample.local_ab Sample.remote_acd [])).2 !! 2%nat
            = Some (LoggingInfo ("File " +:+ dq +:+ n +:+ dq
                                 +:+ " deleted from Yandex.Disk.")))
  /\ (exists n,
         "app:/mc/backups/b" = APP_BACKUPS_DIR +:+ "/" +:+ n
         /\ journal (sync (World Sample.local_ab Sample.remote_acd [])).2 !! 4%nat
            = Some (LoggingInfo ("File " +:+ dq +:+ n +:+ dq +:+ " uploaded to "
                                 +:+ "Yandex.Disk."))).
Proof.
  split; [|split; [|split]].
  - apply (proj1 (X8_mutations_are_logged Sample.local_ab Sample.remote_acd)).
    vm_compute. apply list_elem_of_further, list_elem_of_here.
  - apply (proj1 (proj2 (X8_mutations_are_logged Sample.local_ab Sample.remote_acd))).
    vm_compute. do 3 apply list_elem_of_further. apply list_elem_of_here.
  - apply (proj1 (proj2 (proj2
             (X8_mutations_are_logged Sample.local_ab Sample.remote_acd)))
             1%nat "app:/mc/backups/c" true).
    vm_compute. reflexivity.
  - apply (proj2 (proj2 (proj2
             (X8_mutations_are_logged Sample.local_ab Sample.remote_acd)))
             3%nat [Byte.x02] "app:/mc/backups/b").
    vm_compute. reflexivity.
Defined.

(** X9: a run makes no remote mutation exactly when the two sides
    already agree in the way the two loops test it: every remote file
    has its name followed by ['.tgz'] among the local names, and the
    canonical name of every local file is such a remote file. *)
Theorem X9_no_mutation_iff_in_sync b d :
  mutations (journal (sync (World b d [])).2) = []
  <-> (forall n x, d !! n = Some (RFile x) -> n +:+ TGZ ∈ local_names b)
      /\ (forall f, f ∈ local_names b ->
                    (exists x, d !! canonical_name f = Some (RFile x))
                    /\ canonical_name f +:+ TGZ ∈ local_names b).
Proof.
  rewrite sync_journal. split.
  - intros Hnil. split.
    + intros n x Hx.
      destruct (decide (n +:+ TGZ ∈ local_names b)) as [|Hl]; [done|].
      exfalso.
      apply (filter_nil_not_elem_of _ _ (YadiskRemove (remote_path n) true) Hnil);
        [done|].
      apply remove_in_run. split; [done|]. by exists n, x.
    + intros f [data Hf]%elem_of_local_names.
      destruct (decide (canonical_name f ∈ keep_list (local_names b) (listing d)))
        as [Hk|Hk]; [by apply elem_of_keep_list in Hk|].
      exfalso.
      apply (filter_nil_not_elem_of _ _
               (YadiskUpload data (remote_path (canonical_name f))) Hnil); [done|].
      by apply upload_event_in_run.
  - intros [Hrem Hloc]. unfold run_events.
    rewrite purge_events_nil, upload_events_nil; [done| |].
    + intros f Hf. unfold missing. rewrite bool_decide_eq_true_2; [done|].
      apply elem_of_keep_list. by apply Hloc.
    + intros e [r [Hr Hty]]%elem_of_listing.
      unfold orphan. rewrite Hty. destruct r as [x|]; [|done].
      rewrite bool_decide_eq_true_2; [done|]. by apply (Hrem _ x).
Qed.

(** ** Canonical names *)

Lemma replace_scan_length k s :
  (String.length (Str.replace_scan TGZ EmptyString k s) <= String.length s)%nat.
Proof.
  revert k. induction s as [|c s IH]; intros k; [done|].
  cbn [Str.replace_scan String.length]. destruct k as [|k].
  - destruct (Str.startswith TGZ (String c s)).
    + change (EmptyString +:+ ?x) with x. specialize (IH (String.length TGZ - 1)%nat). lia.
    + cbn [String.length]. specialize (IH 0%nat). lia.
  - specialize (IH k). lia.
Qed.

Lemma replace_scan_shorter s :
  Str.occurs TGZ s = true ->
  (String.length (Str.replace_scan TGZ EmptyString 0 s) < String.length s)%nat.
Proof.
  induction s as [|c s IH]; [done|].
  cbn [Str.occurs Str.replace_scan String.length].
  destruct (Str.startswith TGZ (String c s)); cbn [orb].
  - intros _. change (EmptyString +:+ ?x) with x.
    pose proof (replace_scan_length (String.length TGZ - 1) s). lia.
  - intros Ho. cbn [String.length]. specialize (IH Ho). lia.
Qed.

(** X10: the canonical name of a file is the name itself if and only if
    ['.tgz'] occurs nowhere in the name. *)
Theorem X10_canonical_name_unchanged_iff s :
  canonical_name s = s <-> Str.occurs TGZ s = false.
Proof.
  split; [|apply canonical_name_no_tgz].
  intros Heq. destruct (Str.occurs TGZ s) eqn:Ho; [|done].
  apply replace_scan_shorter in Ho. unfold canonical_name, Str.replace in Heq.
  rewrite Heq in Ho. lia.
Qed.

(** X11: the two loops agree on names without ['.tgz']: for such a
    remote name [r], the local name the first loop looks for, [r]
    followed by ['.tgz'], has the canonical name [r] in the second
    loop. *)
Theorem X11_canonical_name_of_archive_name r :
  Str.occurs TGZ r = false -> canonical_name (r +:+ TGZ) = r.
Proof. apply canonical_name_archive. Qed.

Lemma X11_witness : canonical_name ("world" +:+ TGZ) = "world".
Proof. apply (X11_canonical_name_of_archive_name "world"). reflexivity. Defined.

(** * The directories and the script *)

(** What [handle_dirs] does, from each of the six shapes of a site. *)
Lemma handle_dirs_run s :
  handle_dirs s
  = (Return tt,
     Site (Some (local_after s)) (Some (Some (remote_after s)))
          (site_journal s ++ setup_events s)).
Proof.
  destruct s as [[b|] [[d|]|] jr];
    unfold handle_dirs, bind_s, os_path_exists, os_makedirs, yadisk_exists,
      yadisk_mkdir, site_logging_info, ret_s, local_after, remote_after, setup_events;
    cbn; rewrite <- ?app_assoc, ?app_nil_r; reflexivity.
Qed.

Lemma sync_on_site_ready b d jr :
  sync_on_site (Site (Some b) (Some (Some d)) jr)
  = (Return tt, site_of (sync (World b d jr)).2).
Proof.
  unfold sync_on_site. cbn [local_dir app_dir]. cbv zeta. by rewrite sync_returns.
Qed.

Lemma main_run s :
  main s
  = (Return tt,
     site_of (sync (World (local_after s) (remote_after s)
                          (site_journal s ++ setup_events s))).2).
Proof.
  unfold main, run_logging, bind_s, ret_s. rewrite handle_dirs_run.
  apply sync_on_site_ready.
Qed.


(** X13: [handle_dirs] writes one record for each directory it creates
    and no other: first for the local directory, then for [app:/mc],
    then for [app:/mc/backups], each only if it was missing. *)
Theorem X13_handle_dirs_records s :
  site_journal (handle_dirs s).2
  = site_journal s
    ++ (if local_dir s is None
        then [LoggingInfo ("The " +:+ dq +:+ "backups" +:+ dq
                           +:+ " directory is created on the local drive.")]
        else [])
    ++ (if app_dir s is None
        then [LoggingInfo ("The " +:+ dq +:+ "app:/mc" +:+ dq
                           +:+ " directory is created on Yandex.Disk.")]
        else [])
    ++ (if app_dir s ≫= id is None
        then [LoggingInfo ("The " +:+ dq +:+ "app:/mc/backups" +:+ dq
                           +:+ " directory is created on Yandex.Disk.")]
        else []).
Proof. by rewrite handle_dirs_run. Qed.

(** X14: [handle_dirs] is idempotent: run again on the site it leaves,
    it returns, changes nothing and writes no record. *)
Theorem X14_handle_dirs_idempotent s :
  handle_dirs (handle_dirs s).2 = (Return tt, (handle_dirs s).2).
Proof.
  rewrite !handle_dirs_run. cbn. unfold setup_events. cbn. by rewrite app_nil_r.
Qed.


(** X16: when the local backup directory is missing and the remote
    folder is there, [main] creates the local directory empty and then
    removes every file of the remote folder: afterwards no remote file
    is left, only the directories. *)
Theorem X16_missing_local_directory_empties_remote s d :
  local_dir s = None ->
  app_dir s = Some (Some d) ->
  local_dir (main s).2 = Some ∅
  /\ exists d',
       app_dir (main s).2 = Some (Some d')
       /\ forall n, d' !! n = match d !! n with Some RDir => Some RDir | _ => None end.
Proof.
  intros Hl Hr. rewrite main_run. unfold site_of, local_after, remote_after.
  rewrite Hl, Hr. cbn [local_dir app_dir default mbind option_bind id].
  rewrite sync_local, sync_remote. split; [done|].
  eexists. split; [done|]. intros n.
  assert (Hnames : local_names ∅ = [])
    by (unfold local_names; by rewrite map_to_list_empty).
  rewrite run_remote_lookup, uploads_to_run, Hnames. cbn.
  by destruct (d !! n) as [[x|]|].
Qed.

Lemma X16_witness :
  local_dir (main Site_sample.no_local).2 = Some ∅
  /\ exists d',
       app_dir (main Site_sample.no_local).2 = Some (Some d')
       /\ forall n,
            d' !! n
            = match ({[ "a" := RFile [Byte.x01]; "d" := RDir ]} : gmap string resource) !! n
              with Some RDir => Some RDir | _ => None end.
Proof.
  apply (X16_missing_local_directory_empties_remote Site_sample.no_local); reflexivity.
Defined.

(** With the storage client and the file system answering as modelled,
    no exception reaches the guard: the script ends with status 0 in
    the site that [main] leaves. *)
Lemma script_run s : script s = (Exit 0, (main s).2).
Proof. unfold script. by rewrite main_run. Qed.

(** X17: the guard changes neither directory, and it writes a record
    only when it catches an exception derived from [Exception]: then
    exactly one, with the trace; after a return or a
    [KeyboardInterrupt] it writes nothing.  An exception outside
    [Exception] other than [KeyboardInterrupt] is not caught: it leaves
    the guard as it came, unlogged. *)
Theorem X17_guard_records_and_frame (body : M unit) w :
  backups (main_guard body w).2 = backups (body w).2
  /\ app_backups (main_guard body w).2 = app_backups (body w).2
  /\ journal (main_guard body w).2
     = journal (body w).2
       ++ match (body w).1 with
          | Raise (Exception cls) => [LoggingException (Exception cls) true]
          | _ => []
          end
  /\ (forall e,
         (main_guard body w).1 = Uncaught e
         <-> (body w).1 = Raise e /\ exists cls, e = BaseExceptionOnly cls).
Proof.
  unfold main_guard. destruct (body w) as [[[]|[|cls|cls]] w']; cbn;
    rewrite ?app_nil_r; (split; [done|]); (split; [done|]); (split; [done|]);
    intros e; split.
  - done.
  - by intros [? _].
  - done.
  - intros [[= <-] [cls ?]]. done.
  - intros [= <-]. split; [done|]. by exists cls.
  - by intros [[= <-] _].
  - done.
  - intros [[= <-] [cls' ?]]. done.
Qed.

(** ** Local files without the extension *)

(** X18: a local file whose name contains no ['.tgz'], and whose name
    followed by ['.tgz'] is not local either, is never taken as present
    on the remote side: every run uploads it under its own name,
    whatever the remote folder holds, and a remote file of that name is
    removed first, the removal standing before the upload in the
    journal. *)
Theorem X18_file_without_extension_is_always_uploaded b d f data :
  Str.occurs TGZ f = false ->
  b !! f = Some data ->
  f +:+ TGZ ∉ local_names b ->
  YadiskUpload data (APP_BACKUPS_DIR +:+ "/" +:+ f) ∈ journal (sync (World b d [])).2
  /\ (forall x, d !! f = Some (RFile x) ->
                YadiskRemove (APP_BACKUPS_DIR +:+ "/" +:+ f) true
                  ∈ journal (sync (World b d [])).2)
  /\ (forall i j,
         journal (sync (World b d [])).2 !! i
         = Some (YadiskUpload data (APP_BACKUPS_DIR +:+ "/" +:+ f)) ->
         journal (sync (World b d [])).2 !! j
         = Some (YadiskRemove (APP_BACKUPS_DIR +:+ "/" +:+ f) true) ->
         (j < i)%nat).
Proof.
  intros Ho Hb Hl. rewrite sync_journal. split; [|split].
  - apply upload_in_run. exists f. split; [done|].
    rewrite (canonical_name_no_tgz f Ho). split; [done|].
    by intros [_ ?]%elem_of_keep_list.
  - intros x Hx. apply remove_in_run. split; [done|]. by exists f, x.
  - unfold run_events. rewrite (app_assoc [_]). intros i j Hi Hj.
    eapply (phases_ordered is_remove is_upload); [| |exact Hi|done|exact Hj|done].
    + apply Forall_app. split; [repeat constructor|apply purge_events_no_upload].
    + apply Forall_app. split; [apply upload_events_no_remove|repeat constructor].
Qed.

Lemma X18_witness :
  YadiskUpload [Byte.x01] (APP_BACKUPS_DIR +:+ "/" +:+ "a")
    ∈ journal (sync (World Sample.local_bare Sample.remote_a [])).2
  /\ (forall x, Sample.remote_a !! "a" = Some (RFile x) ->
                YadiskRemove (APP_BACKUPS_DIR +:+ "/" +:+ "a") true
                  ∈ journal (sync (World Sample.local_bare Sample.remote_a [])).2)
  /\ (forall i j,
         journal (sync (World Sample.local_bare Sample.remote_a [])).2 !! i
         = Some (YadiskUpload [Byte.x01] (APP_BACKUPS_DIR +:+ "/" +:+ "a")) ->
         journal (sync (World Sample.local_bare Sample.remote_a [])).2 !! j
         = Some (YadiskRemove (APP_BACKUPS_DIR +:+ "/" +:+ "a") true) ->
         (j < i)%nat).
Proof.
  apply (X18_file_without_extension_is_always_uploaded
           Sample.local_bare Sample.remote_a "a" [Byte.x01]).
  - reflexivity.
  - vm_compute. reflexivity.
  - vm_compute. intros H. apply list_elem_of_singleton in H. discriminate.
Defined.
